(** * Text/video consistency checker: claim extraction, video aggregation
      and scoring

    A shallow embedding of [scoring.py], [text_parser.py] and
    [video_analyzer.py].

    - Python integers are unbounded: they are [Z].
    - A Python [str] is a sequence of code points; the embedding covers the
      code points below 256, one [ascii] each, with the character classes of
      [re] ([\w], [\s], [\d]) and [str.lower] as CPython has them on that
      range.
    - The dictionaries exchanged between the three modules have three fixed
      keys, [people], [cars] and [weapon_present]; they are records whose
      fields are options. *)

From Stdlib Require Import ZArith QArith Qround List String Ascii Bool Lia.
From Stdlib Require Import DecimalString Permutation.
Import ListNotations.

Local Open Scope string_scope.
Local Open Scope Z_scope.

(** ** Shared data model *)

(** The claims dictionary of [extract_claims]: keys [people], [cars],
    [weapon_present].  [None] is Python's [None]: the text did not mention
    the subject. *)
Record Claims := mkClaims {
  claim_people : option Z;
  claim_cars : option Z;
  claim_weapon : option bool
}.

(** [str(n)] for an integer, as the f-strings of [scoring.py] print it. *)
Definition str_of_int (n : Z) : string := NilZero.string_of_int (Z.to_int n).

(** ** scoring.py *)

Module Scoring.

(** The [video_stats] dictionary as [score_consistency] reads it, through
    [dict.get] with a default: a field is [None] when the key is absent. *)
Record VideoStats := mkVideoStats {
  video_people : option Z;
  video_cars : option Z;
  video_weapon : option bool
}.

(** [d.get(key, default)]. *)
Definition get {A : Type} (entry : option A) (default : A) : A :=
  match entry with
  | Some x => x
  | None => default
  end.

Inductive ClaimType := people | cars | weapon.
Inductive Result := supported | partial | unsupported.
Inductive value := VInt (n : Z) | VBool (b : bool).

Record ClaimDetail := mkDetail {
  claim_type : ClaimType;
  claim_value : value;
  video_value : value;
  result : Result;
  note : string
}.

Record ScoreResult := mkScoreResult {
  score : Z;
  details : list ClaimDetail
}.

(** The running pair [(score, details)] that the three blocks of
    [score_consistency] update in turn. *)
Definition acc : Type := Z * list ClaimDetail.

(** The body shared by the people block (lines 38-62) and the cars block
    (lines 65-89); [noun] is the word printed in the exact-match note. *)
Definition score_count (ty : ClaimType) (noun : string)
    (claim : option Z) (video : option Z) (st : acc) : acc :=
  let '(score, details) := st in
  match claim with
  | None => st
  | Some claim_n =>
      let video_n := get video 0 in
      let diff := Z.abs (claim_n - video_n) in
      let '(result, note, score) :=
        if diff =? 0 then
          (supported,
           "Exact match: " ++ str_of_int claim_n ++ " " ++ noun ++ " detected",
           score)
        else if diff <=? 1 then
          (partial,
           "Close match: claimed " ++ str_of_int claim_n ++ ", detected "
             ++ str_of_int video_n ++ " (difference: " ++ str_of_int diff ++ ")",
           score - 10)
        else
          (unsupported,
           "Mismatch: claimed " ++ str_of_int claim_n ++ ", detected "
             ++ str_of_int video_n ++ " (difference: " ++ str_of_int diff ++ ")",
           score - 30) in
      (score,
       (details ++ [mkDetail ty (VInt claim_n) (VInt video_n) result note])%list)
  end.

(** The weapon block (lines 92-116). *)
Definition score_weapon (claim : option bool) (video : option bool)
    (st : acc) : acc :=
  let '(score, details) := st in
  match claim with
  | None => st
  | Some claim_weapon =>
      let video_weapon := get video false in
      let '(result, note, score) :=
        if Bool.eqb claim_weapon video_weapon then
          (supported,
           if claim_weapon
           then "Weapon presence matches: both indicate weapon present"
           else "Weapon absence matches: both indicate no weapon",
           score)
        else
          (unsupported,
           if claim_weapon && negb video_weapon
           then "Mismatch: text claims weapon present, but no weapon detected in video"
           else "Mismatch: text claims no weapon, but weapon detected in video",
           score - 40) in
      (score,
       (details ++ [mkDetail weapon (VBool claim_weapon) (VBool video_weapon)
                      result note])%list)
  end.

Definition score_consistency (claims : Claims) (video_stats : VideoStats)
    : ScoreResult :=
  let st : acc := (100, []) in
  let st := score_count people "people"
              (claim_people claims) (video_people video_stats) st in
  let st := score_count cars "cars"
              (claim_cars claims) (video_cars video_stats) st in
  let st := score_weapon (claim_weapon claims) (video_weapon video_stats) st in
  let '(score, details) := st in
  mkScoreResult (Z.max 0 (Z.min 100 score)) details.

(** *** The documented penalty scheme

    The scheme as the design states it, for comparison with the code
    above: the verdict and the penalty of a numeric claim from the absolute
    difference, and of a weapon claim from the two booleans. *)

Definition documented_count (claim video : Z) : Result * Z :=
  let diff := Z.abs (claim - video) in
  if diff =? 0 then (supported, 0)
  else if diff =? 1 then (partial, 10)
  else (unsupported, 30).

Definition documented_weapon (claim video : bool) : Result * Z :=
  if Bool.eqb claim video then (supported, 0) else (unsupported, 40).

(** What a detail says, without its note. *)
Definition verdict (d : ClaimDetail) : ClaimType * value * value * Result :=
  (claim_type d, claim_value d, video_value d, result d).

Definition expected_count (ty : ClaimType) (claim : option Z) (video : Z)
    : list (ClaimType * value * value * Result) :=
  match claim with
  | Some n => [(ty, VInt n, VInt video, fst (documented_count n video))]
  | None => []
  end.

Definition expected_weapon (claim : option bool) (video : bool)
    : list (ClaimType * value * value * Result) :=
  match claim with
  | Some b => [(weapon, VBool b, VBool video, fst (documented_weapon b video))]
  | None => []
  end.

Definition penalty_count (claim : option Z) (video : Z) : Z :=
  match claim with
  | Some n => snd (documented_count n video)
  | None => 0
  end.

Definition penalty_weapon (claim : option bool) (video : bool) : Z :=
  match claim with
  | Some b => snd (documented_weapon b video)
  | None => 0
  end.

(** The claim types whose field is set, in the order people, cars, weapon. *)
Definition set_fields (claims : Claims) : list ClaimType :=
  (match claim_people claims with Some _ => [people] | None => [] end
   ++ match claim_cars claims with Some _ => [cars] | None => [] end
   ++ match claim_weapon claims with Some _ => [weapon] | None => [] end)%list.

Definition is_set (claims : Claims) (ty : ClaimType) : Prop :=
  match ty with
  | people => claim_people claims <> None
  | cars => claim_cars claims <> None
  | weapon => claim_weapon claims <> None
  end.

(** [claims] says nothing that [claims'] does not say: every field set in
    [claims] is set to the same value in [claims']. *)
Definition stated_in (claims claims' : Claims) : Prop :=
  (forall n, claim_people claims = Some n -> claim_people claims' = Some n)
  /\ (forall n, claim_cars claims = Some n -> claim_cars claims' = Some n)
  /\ (forall b, claim_weapon claims = Some b -> claim_weapon claims' = Some b).

End Scoring.

(** ** The fragment of Python's [re] that text_parser.py uses *)

Module Re.

Definition code (c : ascii) : N := N_of_ascii c.

Definition between (lo hi : N) (c : ascii) : bool :=
  ((lo <=? code c) && (code c <=? hi))%N.

(** [\d]: the decimal digits. *)
Definition is_digit (c : ascii) : bool := between 48 57 c.

(** [\s], and the characters [str.strip] removes: tab to carriage return,
    the four separators 0x1c-0x1f, space, NEL and the no-break space. *)
Definition is_space (c : ascii) : bool :=
  between 9 13 c || between 28 32 c || (code c =? 133)%N || (code c =? 160)%N.

(** [\w]: alphanumeric characters and the underscore. *)
Definition is_word (c : ascii) : bool :=
  between 48 57 c || between 65 90 c || between 97 122 c || (code c =? 95)%N
  || (code c =? 170)%N || between 178 179 c || (code c =? 181)%N
  || between 185 186 c || between 188 190 c
  || between 192 214 c || between 216 246 c || between 248 255 c.

(** [str.lower] on one character. *)
Definition lower_char (c : ascii) : ascii :=
  if between 65 90 c || between 192 214 c || between 216 222 c
  then ascii_of_N (code c + 32)
  else c.

Fixpoint lower (s : string) : string :=
  match s with
  | EmptyString => EmptyString
  | String c s' => String (lower_char c) (lower s')
  end.

Fixpoint lstrip (s : string) : string :=
  match s with
  | EmptyString => EmptyString
  | String c s' => if is_space c then lstrip s' else s
  end.

Fixpoint rstrip (s : string) : string :=
  match s with
  | EmptyString => EmptyString
  | String c s' =>
      match rstrip s' with
      | EmptyString => if is_space c then EmptyString else String c EmptyString
      | t => String c t
      end
  end.

(** [str.strip()] with no argument. *)
Definition strip (s : string) : string := rstrip (lstrip s).

(** Patterns.  [Plus p] is a greedy [c+] for a character class [c]; [Bnd] is
    the word boundary [\b]; [Grp n r] is the [n]-th capturing group. *)
Inductive regex :=
| Lit (w : string)
| Plus (p : ascii -> bool)
| Bnd
| Cat (r1 r2 : regex)
| Alt (r1 r2 : regex)
| Grp (n : nat) (r : regex).

(** [(w|w1|...|wn)] without the group: the alternatives are tried from left
    to right. *)
Definition words (w : string) (ws : list string) : regex :=
  fold_left (fun r w' => Alt r (Lit w')) ws (Lit w).

(** A position in the subject: the character before it, if any, and what is
    left to read. *)
Definition captures : Type := list (nat * string).

(** Reads the literal [w] at the position; returns the new position. *)
Fixpoint lit (w : string) (prev : option ascii) (s : string)
    : option (option ascii * string) :=
  match w with
  | EmptyString => Some (prev, s)
  | String c w' =>
      match s with
      | EmptyString => None
      | String d s' => if Ascii.eqb c d then lit w' (Some d) s' else None
      end
  end.

(** Greedy [c+]: take one more character while the class allows it and the
    rest of the pattern then succeeds; otherwise stop here. *)
Fixpoint plus {R : Type} (p : ascii -> bool) (s : string)
    (k : option ascii -> string -> option R) : option R :=
  match s with
  | EmptyString => None
  | String c s' =>
      if p c then
        match plus p s' k with
        | Some r => Some r
        | None => k (Some c) s'
        end
      else None
  end.

Definition word_before (prev : option ascii) : bool :=
  match prev with
  | Some c => is_word c
  | None => false
  end.

Definition word_after (s : string) : bool :=
  match s with
  | String c _ => is_word c
  | EmptyString => false
  end.

(** The text a group has read, between where it started and where it ended. *)
Definition consumed (s s' : string) : string :=
  substring 0 (String.length s - String.length s') s.

(** The backtracking matcher, in continuation-passing style: [k] is the rest
    of the pattern.  The first alternative whose continuation succeeds wins. *)
Fixpoint matches (r : regex) (prev : option ascii) (s : string)
    (caps : captures) (k : option ascii -> string -> captures -> option captures)
    : option captures :=
  match r with
  | Lit w =>
      match lit w prev s with
      | Some (prev', s') => k prev' s' caps
      | None => None
      end
  | Plus p => plus p s (fun prev' s' => k prev' s' caps)
  | Bnd =>
      if Bool.eqb (word_before prev) (word_after s) then None else k prev s caps
  | Cat r1 r2 =>
      matches r1 prev s caps (fun prev' s' caps' => matches r2 prev' s' caps' k)
  | Alt r1 r2 =>
      match matches r1 prev s caps k with
      | Some m => Some m
      | None => matches r2 prev s caps k
      end
  | Grp n r1 =>
      matches r1 prev s caps
        (fun prev' s' caps' => k prev' s' ((n, consumed s s') :: caps'))
  end.

Fixpoint search_from (r : regex) (prev : option ascii) (s : string)
    : option captures :=
  match matches r prev s [] (fun _ _ caps => Some caps) with
  | Some m => Some m
  | None =>
      match s with
      | EmptyString => None
      | String c s' => search_from r (Some c) s'
      end
  end.

(** [re.search(pattern, s)]: the leftmost match, [None] when there is none. *)
Definition search (r : regex) (s : string) : option captures :=
  search_from r None s.

(** [match.group(n)]. *)
Fixpoint group (m : captures) (n : nat) : string :=
  match m with
  | [] => EmptyString
  | (i, w) :: m' => if Nat.eqb i n then w else group m' n
  end.

(** [bool(re.search(pattern, s))]. *)
Definition found (r : regex) (s : string) : bool :=
  match search r s with
  | Some _ => true
  | None => false
  end.

(** A text without a visible character: every character is whitespace. *)
Fixpoint blank (s : string) : bool :=
  match s with
  | EmptyString => true
  | String c s' => is_space c && blank s'
  end.

(** Every character of [s] is in the class [p]. *)
Fixpoint all_in (p : ascii -> bool) (s : string) : bool :=
  match s with
  | EmptyString => true
  | String c s' => p c && all_in p s'
  end.

(** The pattern has a capturing group numbered [n]. *)
Fixpoint has_group (n : nat) (r : regex) : bool :=
  match r with
  | Lit _ | Plus _ | Bnd => false
  | Cat r1 r2 | Alt r1 r2 => has_group n r1 || has_group n r2
  | Grp i r1 => Nat.eqb i n || has_group n r1
  end.

(** The continuation that ends a pattern: the match is its captures. *)
Definition done (prev : option ascii) (s : string) (caps : captures)
    : option captures := Some caps.

End Re.

(** ** text_parser.py *)

Module TextParser.
Import Re.

Definition word_numbers : list (string * Z) :=
  [("zero", 0); ("one", 1); ("two", 2); ("three", 3); ("four", 4);
   ("five", 5); ("six", 6); ("seven", 7); ("eight", 8); ("nine", 9);
   ("ten", 10); ("eleven", 11); ("twelve", 12); ("thirteen", 13);
   ("fourteen", 14); ("fifteen", 15); ("sixteen", 16); ("seventeen", 17);
   ("eighteen", 18); ("nineteen", 19); ("twenty", 20)].

(** [d.get(key)] on a dictionary with string keys. *)
Fixpoint dict_get (d : list (string * Z)) (key : string) : option Z :=
  match d with
  | [] => None
  | (k, v) :: d' => if String.eqb k key then Some v else dict_get d' key
  end.

Definition word_to_number (word : string) : option Z :=
  dict_get word_numbers (lower word).

(** [int(s)] on the strings the quantity group can capture: a run of decimal
    digits gives its value, anything else raises [ValueError] ([None]). *)
Fixpoint int_digits (s : string) (acc : Z) : option Z :=
  match s with
  | EmptyString => Some acc
  | String c s' =>
      if is_digit c
      then int_digits s' (10 * acc + Z.of_N (code c - 48))
      else None
  end.

Definition int (s : string) : option Z :=
  match s with
  | EmptyString => None
  | _ => int_digits s 0
  end.

Infix ";;" := Cat (at level 61, right associativity).

(** The quantity group shared by the six counting patterns:
    [(one|two|...|twenty|\d+)]. *)
Definition quantity : regex :=
  Grp 1 (Alt (words "one" ["two"; "three"; "four"; "five"; "six"; "seven";
                           "eight"; "nine"; "ten"; "eleven"; "twelve";
                           "thirteen"; "fourteen"; "fifteen"; "sixteen";
                           "seventeen"; "eighteen"; "nineteen"; "twenty"])
             (Plus is_digit)).

Definition people_patterns : list regex :=
  [ Bnd ;; quantity ;; Plus is_space ;;
      Grp 2 (words "people" ["persons"; "person"; "men"; "women"; "men";
                             "individuals"]) ;; Bnd;
    Bnd ;; quantity ;; Plus is_space ;; Lit "person" ;; Bnd;
    Bnd ;; quantity ;; Plus is_space ;; Lit "people" ;; Bnd ].

Definition car_patterns : list regex :=
  [ Bnd ;; quantity ;; Plus is_space ;;
      Grp 2 (words "cars" ["car"; "vehicles"; "vehicle"; "trucks"; "truck";
                           "automobiles"; "automobile"]) ;; Bnd;
    Bnd ;; quantity ;; Plus is_space ;; Lit "car" ;; Bnd;
    Bnd ;; quantity ;; Plus is_space ;; Lit "cars" ;; Bnd ].

Definition weapon_positive_patterns : list regex :=
  [ Bnd ;;
      Grp 1 (words "gun" ["guns"; "weapon"; "weapons"; "firearm"; "firearms";
                          "knife"; "knives"; "pistol"; "pistols"; "rifle";
                          "rifles"; "handgun"; "handguns"]) ;; Bnd ].

Definition weapon_negative_patterns : list regex :=
  [ Bnd ;; Grp 1 (words "no" ["without"; "not"; "none"]) ;; Plus is_space ;;
      Grp 2 (words "gun" ["guns"; "weapon"; "weapons"; "firearm"; "firearms";
                          "knife"; "knives"]);
    Bnd ;;
      Grp 1 (words "gun" ["guns"; "weapon"; "weapons"; "firearm"; "firearms";
                          "knife"; "knives"]) ;; Plus is_space ;;
      Grp 2 (words "not" ["absent"; "missing"]) ].

(** The loop over the counting patterns (lines 67-81 and 91-103): the first
    pattern that matches and whose quantity resolves sets the field. *)
Fixpoint first_count (patterns : list regex) (text_lower : string) : option Z :=
  match patterns with
  | [] => None
  | pattern :: rest =>
      match search pattern text_lower with
      | Some m =>
          let number_str := group m 1 in
          match word_to_number number_str with
          | Some num => Some num
          | None =>
              match int number_str with
              | Some num => Some num
              | None => first_count rest text_lower
              end
          end
      | None => first_count rest text_lower
      end
  end.

(** [any(re.search(pattern, text_lower) for pattern in patterns)]. *)
Definition any_found (patterns : list regex) (text_lower : string) : bool :=
  existsb (fun pattern => found pattern text_lower) patterns.

Definition extract_claims (text : string) : Claims :=
  match text, strip text with
  | EmptyString, _ | _, EmptyString => mkClaims None None None
  | _, _ =>
      let text_lower := lower text in
      let has_positive := any_found weapon_positive_patterns text_lower in
      let has_negative := any_found weapon_negative_patterns text_lower in
      mkClaims
        (first_count people_patterns text_lower)
        (first_count car_patterns text_lower)
        (if has_positive && negb has_negative then Some true
         else if has_negative then Some false
         else None)
  end.

(** The quantity [number_str] resolves to a number, through the table or
    through [int] (lines 72-78). *)
Definition resolves (number_str : string) : bool :=
  match word_to_number number_str with
  | Some _ => true
  | None =>
      match int number_str with
      | Some _ => true
      | None => false
      end
  end.

(** A list of three counting patterns as lines 61-65 and 85-89 build them:
    the quantity, whitespace and a noun out of [noun :: nouns], then the
    same with the single nouns [a] and [b]. *)
Definition counting_patterns (noun : string) (nouns : list string)
    (a b : string) : list regex :=
  [ Bnd ;; quantity ;; Plus is_space ;; Grp 2 (words noun nouns) ;; Bnd;
    Bnd ;; quantity ;; Plus is_space ;; Lit a ;; Bnd;
    Bnd ;; quantity ;; Plus is_space ;; Lit b ;; Bnd ].

(** *** The documented weapon grammar

    The negation patterns as the design words them, over all fourteen
    weapon keywords and matched on whole words, for comparison with
    [weapon_negative_patterns]. *)

Definition documented_keywords : regex :=
  words "gun" ["guns"; "weapon"; "weapons"; "firearm"; "firearms";
               "knife"; "knives"; "pistol"; "pistols"; "rifle";
               "rifles"; "handgun"; "handguns"].

Definition documented_negative_patterns : list regex :=
  [ Bnd ;; words "no" ["without"; "not"; "none"] ;; Plus is_space ;;
      documented_keywords ;; Bnd;
    Bnd ;; documented_keywords ;; Plus is_space ;;
      words "not" ["absent"; "missing"] ;; Bnd ].

End TextParser.

(** ** video_analyzer.py *)

Module VideoAnalyzer.
Local Open Scope list_scope.

(** Exceptions [analyze_video] can end with.  [DetectorFailure] stands for
    whatever the YOLO model raises when it is called on a frame. *)
Inductive exn :=
| FileNotFoundError
| ValueError
| ZeroDivisionError
| IndexError
| DetectorFailure.

Inductive outcome (A : Type) :=
| Return (a : A)
| Raise (e : exn).
Arguments Return {A} a.
Arguments Raise {A} e.

(** One detection box: [int(box.cls[0])] and [float(box.conf[0])].  A
    confidence is a finite number, compared exactly with 0.5. *)
Record Box := mkBox {
  cls : Z;
  conf : Q
}.

Definition person_class_ids : list Z := [0].
Definition vehicle_class_ids : list Z := [2; 3; 5; 7].
Definition weapon_class_ids : list Z := [76].

(** [x in ids]. *)
Definition mem (x : Z) (ids : list Z) : bool := existsb (Z.eqb x) ids.

(** [int(x)] on a float: truncation towards zero. *)
Definition int_of_float (x : Q) : Z := Z.quot (Qnum x) (Zpos (Qden x)).

(** [l[i]], with Python's negative indices; [None] is [IndexError]. *)
Definition getitem {A : Type} (l : list A) (i : Z) : option A :=
  let n := Z.of_nat (List.length l) in
  let j := if i <? 0 then i + n else i in
  if (0 <=? j) && (j <? n) then nth_error l (Z.to_nat j) else None.

Section Analyzer.

(** Raw frames as the capture delivers them, and annotated frames as
    [plot()] draws them: both are opaque images here. *)
Variables Frame Image : Type.

(** [results[0]] of one model call: the boxes (possibly [None]) and the
    annotated frame that [plot()] returns. *)
Record Results := mkResults {
  boxes : option (list Box);
  plot : Image
}.

(** What an opened capture delivers: its frame rate, a finite number, and
    its frames.  The frame count that line 43 reads is never used. *)
Record Video := mkVideo {
  fps : Q;
  frames_of : list Frame
}.

(** The world around one call: whether the path exists, what the [n]-th
    [cv2.VideoCapture(video_path)] of the call gives ([None]: [isOpened()]
    is false, and every read fails), and the detector ([None]: the model
    call raises).  Loading the model weights is taken to succeed. *)
Record Env := mkEnv {
  path_exists : bool;
  capture : nat -> option Video;
  model : Frame -> option Results
}.

Inductive event :=
| Exists
| Open (h : nat)
| Read (h : nat)
| Detect (f : Frame)
| Release (h : nat).

(** The effects of a run: what happened, in order; how many captures were
    created; which captures are open and not yet released. *)
Record State := mkState {
  trace : list event;
  created : nat;
  held : list nat
}.

Definition init : State := mkState [] 0 [].

Definition M (A : Type) : Type := State -> outcome A * State.

Definition ret {A : Type} (a : A) : M A := fun st => (Return a, st).

Definition raise {A : Type} (e : exn) : M A := fun st => (Raise e, st).

Definition bind {A B : Type} (m : M A) (f : A -> M B) : M B :=
  fun st =>
    match m st with
    | (Return a, st') => f a st'
    | (Raise e, st') => (Raise e, st')
    end.

Notation "x <- m ; f" := (bind m (fun x => f))
  (at level 62, m at next level, right associativity).
Notation "' pat <- m ; f" := (bind m (fun x => match x with pat => f end))
  (at level 62, pat pattern, m at next level, right associativity).
Notation "m ;; f" := (bind m (fun _ => f))
  (at level 62, right associativity).

Definition log (e : event) : M unit :=
  fun st => (Return tt, mkState (trace st ++ [e]) (created st) (held st)).

(** [os.path.exists(video_path)]. *)
Definition exists_ (env : Env) : M bool :=
  log Exists ;; ret (path_exists env).

(** [cv2.VideoCapture(video_path)]: a fresh handle, held when it opened. *)
Definition VideoCapture (env : Env) : M (nat * option Video) :=
  fun st =>
    let h := created st in
    let v := capture env h in
    (Return (h, v),
     mkState (trace st ++ [Open h]) (S h)
       (match v with Some _ => h :: held st | None => held st end)).

(** [cap.release()]. *)
Definition release (h : nat) : M unit :=
  fun st =>
    (Return tt,
     mkState (trace st ++ [Release h]) (created st)
       (filter (fun h' => negb (Nat.eqb h' h)) (held st))).

(** [model(frame, verbose=False)[0]]. *)
Definition detect (env : Env) (frame : Frame) : M Results :=
  log (Detect frame) ;;
  match model env frame with
  | Some results => ret results
  | None => raise DetectorFailure
  end.

Definition index {A : Type} (l : list A) (i : Z) : M A :=
  match getitem l i with
  | Some x => ret x
  | None => raise IndexError
  end.

(** The counters of one frame: [people_count], [cars_count], [has_weapon]. *)
Definition counts : Type := Z * Z * bool.

(** One turn of the loop over the boxes (lines 96-109). *)
Definition count_box (c : counts) (box : Box) : counts :=
  let '(people_count, cars_count, has_weapon) := c in
  let cls_id := cls box in
  if negb (Qle_bool (1 # 2) (conf box)) then c
  else if mem cls_id person_class_ids then (people_count + 1, cars_count, has_weapon)
  else if mem cls_id vehicle_class_ids then (people_count, cars_count + 1, has_weapon)
  else if mem cls_id weapon_class_ids then (people_count, cars_count, true)
  else c.

Definition count_boxes (detections : Results) : counts :=
  match boxes detections with
  | Some bs => fold_left count_box bs (0, 0, false)
  | None => (0, 0, false)
  end.

(** The variables the sampling loop updates. *)
Record Tally := mkTally {
  max_people : Z;
  max_cars : Z;
  weapon_so_far : bool;
  frames_to_save : list Image
}.

(** Lines 84-121: what is done with a frame that is sampled. *)
Definition process (env : Env) (frame : Frame) (t : Tally) : M Tally :=
  detections <- detect env frame ;
  let '(people_count, cars_count, has_weapon) := count_boxes detections in
  ret (mkTally (Z.max (max_people t) people_count)
               (Z.max (max_cars t) cars_count)
               (if has_weapon then true else weapon_so_far t)
               (frames_to_save t ++ [plot detections])).

(** The [while True] loop (lines 76-123) over what the capture [h] still has
    to deliver; the read that finds nothing left ends it. *)
Fixpoint sample_loop (env : Env) (h : nat) (frame_interval : Z)
    (rest : list Frame) (frame_count : Z) (t : Tally) : M Tally :=
  match rest with
  | [] => log (Read h) ;; ret t
  | frame :: rest' =>
      log (Read h) ;;
      t' <- (if frame_count mod frame_interval =? 0
             then process env frame t
             else ret t) ;
      sample_loop env h frame_interval rest' (frame_count + 1) t'
  end.

(** Lines 128-147: the frames that are returned. *)
Definition select_frames (env : Env) (frames_to_save : list Image)
    : M (list Image) :=
  if (0 <? List.length frames_to_save)%nat then
    if (List.length frames_to_save <=? 3)%nat then ret frames_to_save
    else
      first <- index frames_to_save 0 ;
      middle <- index frames_to_save (Z.of_nat (List.length frames_to_save / 2)) ;
      last <- index frames_to_save (-1) ;
      ret [first; middle; last]
  else
    '(h, v) <- VideoCapture env ;
    log (Read h) ;;
    annotated_frames <-
      match v with
      | Some (mkVideo _ (frame :: _)) =>
          results <- detect env frame ;
          ret [plot results]
      | _ => ret []
      end ;
    release h ;;
    ret annotated_frames.

(** The dictionary [analyze_video] returns. *)
Record VideoResult := mkVideoResult {
  people : Z;
  cars : Z;
  weapon_present : bool;
  frames : list Image
}.

(** Line 49, once [frame_rate] is known not to be zero. *)
Definition frame_interval_of (fps : Q) (frame_rate : Z) : Z :=
  Z.max 1 (int_of_float (fps / inject_Z frame_rate)).

Definition analyze_video (env : Env) (frame_rate : Z) : M VideoResult :=
  found <- exists_ env ;
  if negb found then raise FileNotFoundError
  else
    '(h, v) <- VideoCapture env ;
    match v with
    | None => raise ValueError
    | Some video =>
        if Qle_bool (fps video) 0 then raise ValueError
        else if frame_rate =? 0 then raise ZeroDivisionError
        else
          let frame_interval := frame_interval_of (fps video) frame_rate in
          t <- sample_loop env h frame_interval (frames_of video) 0
                 (mkTally 0 0 false []) ;
          release h ;;
          annotated_frames <- select_frames env (frames_to_save t) ;
          ret (mkVideoResult (max_people t) (max_cars t) (weapon_so_far t)
                 annotated_frames)
    end.

(** *** The documented sampling and aggregation

    The policy as the design states it, for comparison with the loop
    above. *)

(** The elements of [l] whose 0-based index, counted from [start], is a
    multiple of [interval], in ascending index order. *)
Definition sampled_at {A : Type} (interval : Z) (start : nat) (l : list A)
    : list A :=
  map snd
    (filter (fun p => Z.of_nat (fst p) mod interval =? 0)
       (combine (seq start (List.length l)) l)).

Definition sampled {A : Type} (interval : Z) (l : list A) : list A :=
  sampled_at interval 0 l.

(** A detection counts when its confidence is at least 0.5. *)
Definition confident (b : Box) : bool := Qle_bool (1 # 2) (conf b).

Definition boxes_of (r : Results) : list Box :=
  match boxes r with
  | Some bs => bs
  | None => []
  end.

Definition count_class (ids : list Z) (bs : list Box) : Z :=
  Z.of_nat (List.length (filter (fun b => confident b && mem (cls b) ids) bs)).

Definition people_in (r : Results) : Z :=
  count_class person_class_ids (boxes_of r).

Definition cars_in (r : Results) : Z :=
  count_class vehicle_class_ids (boxes_of r).

Definition weapon_in (r : Results) : bool :=
  existsb (fun b => confident b && mem (cls b) weapon_class_ids) (boxes_of r).

(** The maximum of a list of counts, 0 for the empty list. *)
Definition maximum (l : list Z) : Z := fold_right Z.max 0 l.

(** The frames the detector was called on, in order. *)
Definition detected (tr : list event) : list Frame :=
  flat_map (fun e => match e with Detect f => [f] | _ => [] end) tr.

(** How many times the capture [h] was read. *)
Definition reads (h : nat) (tr : list event) : nat :=
  List.length
    (filter (fun e => match e with Read h' => Nat.eqb h' h | _ => false end)
       tr).

(** The first frame of the capture that the fallback opens, if it has one. *)
Definition fallback_frame (env : Env) (h : nat) : option Frame :=
  match capture env h with
  | Some (mkVideo _ (frame :: _)) => Some frame
  | _ => None
  end.

(** An event the sampling loop can add to the trace: a read of its capture
    or a detector call. *)
Definition loop_event (h : nat) (e : event) : Prop :=
  e = Read h \/ exists f, e = Detect f.

(** The state when the loop starts: the path was checked and the first
    capture is open. *)
Definition started : State := mkState [Exists; Open 0%nat] 1 [0%nat].

(** What is left of [analyze_video] once its checks have passed. *)
Definition after_checks (env : Env) (video : Video) (frame_rate : Z)
    : M VideoResult :=
  let frame_interval := frame_interval_of (fps video) frame_rate in
  t <- sample_loop env 0 frame_interval (frames_of video) 0
         (mkTally 0 0 false []) ;
  release 0 ;;
  annotated_frames <- select_frames env (frames_to_save t) ;
  ret (mkVideoResult (max_people t) (max_cars t) (weapon_so_far t)
         annotated_frames).

(** The loop body without its effects: how one model result changes the
    tally. *)
Definition absorb (t : Tally) (r : Results) : Tally :=
  let '(people_count, cars_count, has_weapon) := count_boxes r in
  mkTally (Z.max (max_people t) people_count)
          (Z.max (max_cars t) cars_count)
          (if has_weapon then true else weapon_so_far t)
          (frames_to_save t ++ [plot r]).

End Analyzer.

Arguments mkResults {Image} boxes plot.
Arguments boxes {Image} r.
Arguments plot {Image} r.
Arguments mkVideo {Frame} fps frames_of.
Arguments fps {Frame} v.
Arguments frames_of {Frame} v.
Arguments mkEnv {Frame Image} path_exists capture model.
Arguments path_exists {Frame Image} e.
Arguments capture {Frame Image} e n.
Arguments model {Frame Image} e f.
Arguments Exists {Frame}.
Arguments Open {Frame} h.
Arguments Read {Frame} h.
Arguments Detect {Frame} f.
Arguments Release {Frame} h.
Arguments mkState {Frame} trace created held.
Arguments trace {Frame} s.
Arguments created {Frame} s.
Arguments held {Frame} s.
Arguments init {Frame}.
Arguments mkTally {Image} max_people max_cars weapon_so_far frames_to_save.
Arguments max_people {Image} t.
Arguments max_cars {Image} t.
Arguments weapon_so_far {Image} t.
Arguments frames_to_save {Image} t.
Arguments mkVideoResult {Image} people cars weapon_present frames.
Arguments people {Image} v.
Arguments cars {Image} v.
Arguments weapon_present {Image} v.
Arguments frames {Image} v.
Arguments count_boxes {Image} detections.
Arguments process {Frame Image} env frame t.
Arguments sample_loop {Frame Image} env h frame_interval rest frame_count t.
Arguments select_frames {Frame Image} env frames_to_save.
Arguments analyze_video {Frame Image} env frame_rate.
Arguments ret {Frame A} a.
Arguments raise {Frame A} e.
Arguments bind {Frame A B} m f.
Arguments log {Frame} e.
Arguments exists_ {Frame Image} env.
Arguments VideoCapture {Frame Image} env.
Arguments release {Frame} h.
Arguments detect {Frame Image} env frame.
Arguments index {Frame A} l i.
Arguments loop_event {Frame} h e.
Arguments started {Frame}.
Arguments after_checks {Frame Image} env video frame_rate.
Arguments boxes_of {Image} r.
Arguments people_in {Image} r.
Arguments cars_in {Image} r.
Arguments weapon_in {Image} r.
Arguments detected {Frame} tr.
Arguments reads {Frame} h tr.
Arguments fallback_frame {Frame Image} env h.
Arguments absorb {Image} t r.

(** *** Sample worlds

    Frames and annotated frames are numbered; frame [f] is annotated as
    [100 + f]. *)

(** A detector that sees [f] people in frame [f], one confident car and
    one doubtful one, and a knife in frame 3. *)
Definition sample_detector (f : nat) : Results nat :=
  mkResults
    (Some (repeat (mkBox 0 (9 # 10)) f
           ++ [mkBox 2 (1 # 2); mkBox 7 (2 # 5)]
           ++ (if Nat.eqb f 3 then [mkBox 76 (3 # 4)] else [])))
    (100 + f)%nat.

(** A video of [n] frames at [rate] frames per second, which every capture
    delivers in full. *)
Definition clip (rate : Q) (n : nat) : Env nat nat :=
  mkEnv true (fun _ => Some (mkVideo rate (seq 0 n)))
    (fun f => Some (sample_detector f)).

(** A video that delivers the frames [l], in that order. *)
Definition clip_of (rate : Q) (l : list nat) : Env nat nat :=
  mkEnv true (fun _ => Some (mkVideo rate l))
    (fun f => Some (sample_detector f)).

(** The same video with a detector that raises on frame 2. *)
Definition flaky_clip (rate : Q) (n : nat) : Env nat nat :=
  mkEnv true (fun _ => Some (mkVideo rate (seq 0 n)))
    (fun f => if Nat.eqb f 2 then None else Some (sample_detector f)).

(** A source whose first capture delivers nothing and whose second capture
    delivers frame 7. *)
Definition late_clip : Env nat nat :=
  mkEnv true
    (fun h => Some (mkVideo 1 (match h with O => [] | S _ => [7%nat] end)))
    (fun f => Some (sample_detector f)).

(** A file that exists and that OpenCV cannot open. *)
Definition unreadable_clip : Env nat nat :=
  mkEnv true (fun _ => None) (fun f => Some (sample_detector f)).

(** A path that does not exist. *)
Definition missing_clip : Env nat nat :=
  mkEnv false (fun _ => None) (fun f => Some (sample_detector f)).

End VideoAnalyzer.

(** ** app.py *)

Module App.
Import Scoring VideoAnalyzer.
Local Open Scope list_scope.

(** The colour of the score line (line 110) and the mark of one detail
    line (line 144). *)
Inductive color := green | yellow | red.
Inductive mark := check | warn | cross.

Section Handler.

(** The uploaded file, and the frames as [video_analyzer] has them. *)
Variables Upload Frame Image : Type.

(** What the page shows for one request.  The static parts of the page
    (title, dividers, headings) are left out; [usage_tips] is the closing
    block of lines 204-223, which the early [return]s skip. *)
Inductive message :=
| error_upload
| error_text
| error_analyzing (e : exn)
| success
| score_line (c : color) (score : Z)
| details_table (ds : list ClaimDetail)
| detail_line (m : mark) (d : ClaimDetail)
| info_no_claims
| metrics (people cars : Z) (weapon_status : string)
| image (column : nat) (frame : Image) (caption : nat)
| warning_no_frames
| claims_json (c : Claims)
| stats_json (people cars : Z) (weapon_present : bool) (frames_count : nat)
| usage_tips.

(** What one request does, in order: writing the upload to a temporary
    file, running [analyze_video] (with the effects of that run), removing
    the temporary file, showing something. *)
Inductive effect :=
| Save (u : Upload)
| Analyze (st : State Frame)
| Unlink
| Show (m : message).

(** The [video_stats] dictionary that [analyze_video] returned, as
    [score_consistency] reads it: the three keys are there. *)
Definition stats_of (video_stats : VideoResult Image) : VideoStats :=
  mkVideoStats (Some (people video_stats)) (Some (cars video_stats))
    (Some (weapon_present video_stats)).

(** Line 110. *)
Definition score_color (score : Z) : color :=
  if 80 <=? score then green else if 50 <=? score then yellow else red.

(** Line 144. *)
Definition status_emoji (r : Result) : mark :=
  match r with
  | supported => check
  | partial => warn
  | unsupported => cross
  end.

(** Lines 121-151: the table and one line per detail, or the note that no
    claim was found. *)
Definition show_details (ds : list ClaimDetail) : list effect :=
  match ds with
  | [] => [Show info_no_claims]
  | _ :: _ =>
      Show (details_table ds)
      :: map (fun d => Show (detail_line (status_emoji (result d)) d)) ds
  end.

(** Lines 172-182: the first three frames, frame [idx] (converted to RGB
    for display) in column [idx % len(cols)] of [min(len(frames), 3)]
    columns, captioned [idx + 1]. *)
Definition show_frames (frames : list Image) : list effect :=
  match frames with
  | [] => [Show warning_no_frames]
  | _ :: _ =>
      let cols := Nat.min (List.length frames) 3 in
      map (fun p => Show (image (fst p mod cols) (snd p) (fst p + 1)))
        (combine (seq 0 (List.length (firstn 3 frames))) (firstn 3 frames))
  end.

(** Lines 56-202 and 204-223: one press of the Analyze button.  The upload
    is written to a temporary file, which therefore exists when
    [analyze_video] is called on it, with the default [frame_rate] of 1;
    [capture] and [model] say what OpenCV and the detector make of that
    file.  [extract_claims] and [score_consistency] do not raise, so
    their handlers (lines 84-87 and 93-96) are never entered; writing and
    removing the file, Streamlit and pandas are taken not to fail, so the
    handler of lines 194-202 is not entered either. *)
Definition on_analyze (video_file : option Upload) (text_desc : string)
    (capture : nat -> option (Video Frame))
    (model : Frame -> option (Results Image)) : list effect :=
  match video_file with
  | None => [Show error_upload]
  | Some upload =>
      match text_desc, Re.strip text_desc with
      | EmptyString, _ | _, EmptyString => [Show error_text]
      | _, _ =>
          Save upload
          :: match analyze_video (mkEnv true capture model) 1 init with
             | (Raise e, st) =>
                 [Analyze st; Show (error_analyzing e); Unlink]
             | (Return video_stats, st) =>
                 let claims := TextParser.extract_claims text_desc in
                 let result :=
                   score_consistency claims (stats_of video_stats) in
                 [Analyze st; Unlink; Show success;
                  Show (score_line (score_color (score result))
                          (score result))]
                 ++ show_details (details result)
                 ++ [Show (metrics (people video_stats) (cars video_stats)
                             (if weapon_present video_stats
                              then "Yes" else "No"))]
                 ++ show_frames (frames video_stats)
                 ++ [Show (claims_json claims);
                     Show (stats_json (people video_stats)
                             (cars video_stats)
                             (weapon_present video_stats)
                             (List.length (frames video_stats)));
                     Show usage_tips]
             end
      end
  end.

(** The part of a request that touches the temporary file or the video. *)
Definition file_effects (es : list effect) : list effect :=
  filter (fun e => match e with Show _ => false | _ => true end) es.

(** What was shown. *)
Definition shown (es : list effect) : list message :=
  flat_map (fun e => match e with Show m => [m] | _ => [] end) es.

End Handler.

Arguments error_upload {Image}.
Arguments error_text {Image}.
Arguments error_analyzing {Image} e.
Arguments success {Image}.
Arguments score_line {Image} c score.
Arguments details_table {Image} ds.
Arguments detail_line {Image} m d.
Arguments info_no_claims {Image}.
Arguments metrics {Image} people cars weapon_status.
Arguments image {Image} column frame caption.
Arguments warning_no_frames {Image}.
Arguments claims_json {Image} c.
Arguments stats_json {Image} people cars weapon_present frames_count.
Arguments usage_tips {Image}.
Arguments Save {Upload Frame Image} u.
Arguments Analyze {Upload Frame Image} st.
Arguments Unlink {Upload Frame Image}.
Arguments Show {Upload Frame Image} m.
Arguments stats_of {Image} video_stats.
Arguments show_details {Upload Frame Image} ds.
Arguments show_frames {Upload Frame Image} frames.
Arguments on_analyze {Upload Frame Image} video_file text_desc capture model.
Arguments file_effects {Upload Frame Image} es.
Arguments shown {Upload Frame Image} es.

End App.

(** * Properties *)

(** ** Scoring *)

Module ScoringFacts.
Import Scoring.
Local Open Scope list_scope.

(** The three cases of a numeric comparison, as the code tests them. *)
Lemma count_cases (diff : Z) :
  0 <= diff ->
  (diff = 0 /\ (diff =? 0) = true)
  \/ (diff = 1 /\ (diff =? 0) = false /\ (diff <=? 1) = true)
  \/ (2 <= diff /\ (diff =? 0) = false /\ (diff <=? 1) = false).
Proof.
  intros Hd.
  destruct (Z.eq_dec diff 0) as [-> | H0]; [left; split; reflexivity |].
  destruct (Z.eq_dec diff 1) as [-> | H1];
    [right; left; repeat split; reflexivity |].
  right; right. repeat split; [lia | apply Z.eqb_neq; lia | apply Z.leb_gt; lia].
Qed.

(** One numeric block: it appends the documented verdict and subtracts the
    documented penalty. *)
Lemma score_count_documented ty noun claim video sc ds :
  exists ds',
    score_count ty noun claim video (sc, ds)
      = (sc - penalty_count claim (get video 0), ds ++ ds')
    /\ map verdict ds' = expected_count ty claim (get video 0).
Proof.
  destruct claim as [n |]; cbn [score_count penalty_count expected_count].
  - unfold documented_count.
    destruct (count_cases (Z.abs (n - get video 0)) (Z.abs_nonneg _))
      as [[E H0] | [[E [H0 H1]] | [E [H0 H1]]]].
    + rewrite H0. eexists; split; [cbn; rewrite Z.sub_0_r |]; reflexivity.
    + rewrite H0, H1, E. eexists; split; reflexivity.
    + rewrite H0, H1.
      replace (Z.abs (n - get video 0) =? 1) with false
        by (symmetry; apply Z.eqb_neq; lia).
      eexists; split; reflexivity.
  - exists []. rewrite app_nil_r, Z.sub_0_r. split; reflexivity.
Qed.

Lemma score_weapon_documented claim video sc ds :
  exists ds',
    score_weapon claim video (sc, ds)
      = (sc - penalty_weapon claim (get video false), ds ++ ds')
    /\ map verdict ds' = expected_weapon claim (get video false).
Proof.
  destruct claim as [b |]; cbn [score_weapon penalty_weapon expected_weapon].
  - unfold documented_weapon.
    destruct (Bool.eqb b (get video false)).
    + eexists; split; [cbn; rewrite Z.sub_0_r |]; reflexivity.
    + eexists; split; reflexivity.
  - exists []. rewrite app_nil_r, Z.sub_0_r. split; reflexivity.
Qed.

Lemma penalty_count_range claim video :
  0 <= penalty_count claim video <= 30.
Proof.
  destruct claim as [n |]; cbn; [| lia].
  unfold documented_count.
  destruct (_ =? 0); [cbn; lia |]. destruct (_ =? 1); cbn; lia.
Qed.

Lemma penalty_weapon_range claim video :
  0 <= penalty_weapon claim video <= 40.
Proof.
  destruct claim as [b |]; cbn; [| lia].
  unfold documented_weapon. destruct (Bool.eqb _ _); cbn; lia.
Qed.

(** The whole function in terms of the documented scheme. *)
Lemma score_consistency_unfold claims video_stats :
  let vp := get (video_people video_stats) 0 in
  let vc := get (video_cars video_stats) 0 in
  let vw := get (video_weapon video_stats) false in
  score (score_consistency claims video_stats)
    = 100 - penalty_count (claim_people claims) vp
          - penalty_count (claim_cars claims) vc
          - penalty_weapon (claim_weapon claims) vw
  /\ map verdict (details (score_consistency claims video_stats))
    = expected_count people (claim_people claims) vp
      ++ expected_count cars (claim_cars claims) vc
      ++ expected_weapon (claim_weapon claims) vw.
Proof.
  intros vp vc vw. subst vp vc vw. unfold score_consistency.
  destruct (score_count_documented people "people" (claim_people claims)
              (video_people video_stats) 100 []) as [d1 [-> E1]].
  match goal with
  | |- context [score_count cars ?noun ?c ?v (?sc, ?ds)] =>
      destruct (score_count_documented cars noun c v sc ds) as [d2 [-> E2]]
  end.
  match goal with
  | |- context [score_weapon ?c ?v (?sc, ?ds)] =>
      destruct (score_weapon_documented c v sc ds) as [d3 [-> E3]]
  end.
  cbn [score details].
  pose proof (penalty_count_range (claim_people claims)
                (get (video_people video_stats) 0)).
  pose proof (penalty_count_range (claim_cars claims)
                (get (video_cars video_stats) 0)).
  pose proof (penalty_weapon_range (claim_weapon claims)
                (get (video_weapon video_stats) false)).
  split; [lia |].
  rewrite !map_app, E1, E2, E3. cbn [map app]. now rewrite app_assoc.
Qed.

Lemma documented_count_table (c d : Z) :
  (Z.abs (c - d) = 0 -> documented_count c d = (supported, 0))
  /\ (Z.abs (c - d) = 1 -> documented_count c d = (partial, 10))
  /\ (2 <= Z.abs (c - d) -> documented_count c d = (unsupported, 30)).
Proof.
  unfold documented_count. repeat split; intros H.
  - now rewrite H.
  - now rewrite H.
  - destruct (count_cases _ (Z.abs_nonneg (c - d)))
      as [[E _] | [[E _] | [_ [H0 _]]]]; try lia.
    rewrite H0.
    replace (Z.abs (c - d) =? 1) with false
      by (symmetry; apply Z.eqb_neq; lia).
    reflexivity.
Qed.

Lemma documented_weapon_table (a b : bool) :
  (a = b -> documented_weapon a b = (supported, 0))
  /\ (a <> b -> documented_weapon a b = (unsupported, 40)).
Proof.
  unfold documented_weapon. destruct a, b; split; intros H;
    try reflexivity; congruence.
Qed.

(** C1. [score_consistency] starts from 100 and applies to each set claim
    field exactly the documented penalty.  For a numeric claim (people or
    cars) with diff = |claim - video|: diff = 0 is [supported] with penalty
    0, diff = 1 is [partial] with penalty 10, diff >= 2 is [unsupported]
    with penalty 30.  For a weapon claim, equal booleans are [supported]
    with penalty 0 and unequal booleans are [unsupported] with penalty 40.
    The score is 100 minus the penalties of the set fields and the details
    carry the verdicts of the set fields. *)
Theorem score_consistency_penalties (claims : Claims) (video_stats : VideoStats) :
  let vp := get (video_people video_stats) 0 in
  let vc := get (video_cars video_stats) 0 in
  let vw := get (video_weapon video_stats) false in
  (score (score_consistency claims video_stats)
     = 100 - penalty_count (claim_people claims) vp
           - penalty_count (claim_cars claims) vc
           - penalty_weapon (claim_weapon claims) vw
   /\ map verdict (details (score_consistency claims video_stats))
     = expected_count people (claim_people claims) vp
       ++ expected_count cars (claim_cars claims) vc
       ++ expected_weapon (claim_weapon claims) vw)
  /\ (forall c d : Z,
        (Z.abs (c - d) = 0 -> documented_count c d = (supported, 0))
        /\ (Z.abs (c - d) = 1 -> documented_count c d = (partial, 10))
        /\ (2 <= Z.abs (c - d) -> documented_count c d = (unsupported, 30)))
  /\ (forall a b : bool,
        (a = b -> documented_weapon a b = (supported, 0))
        /\ (a <> b -> documented_weapon a b = (unsupported, 40))).
Proof.
  intros vp vc vw. split; [apply score_consistency_unfold |].
  split; [apply documented_count_table | apply documented_weapon_table].
Qed.

(** The penalties on one concrete request: people off by one, cars off by
    three, weapon claimed and not seen. *)
Lemma score_consistency_penalties_witness :
  score (score_consistency (mkClaims (Some 4) (Some 1) (Some true))
           (mkVideoStats (Some 3) (Some 4) (Some false))) = 100 - 10 - 30 - 40
  /\ documented_count 4 3 = (partial, 10)
  /\ documented_count 1 4 = (unsupported, 30)
  /\ documented_weapon true false = (unsupported, 40).
Proof.
  pose proof (score_consistency_penalties
                (mkClaims (Some 4) (Some 1) (Some true))
                (mkVideoStats (Some 3) (Some 4) (Some false)))
    as [[Hs _] [Hc Hw]].
  split; [exact Hs |].
  split; [apply (Hc 4 3); reflexivity |].
  split; [apply (Hc 1 4); vm_compute; discriminate |].
  apply (Hw true false); discriminate.
Defined.

(** C2. The score always lies in [0, 100]; a people mismatch (penalty 30),
    a cars mismatch (penalty 30) and a weapon mismatch (penalty 40) together
    take the score from 100 to exactly 0. *)
Theorem score_in_range (claims : Claims) (video_stats : VideoStats) :
  0 <= score (score_consistency claims video_stats) <= 100
  /\ (forall (p c : Z) (w : bool),
        claim_people claims = Some p ->
        claim_cars claims = Some c ->
        claim_weapon claims = Some w ->
        2 <= Z.abs (p - get (video_people video_stats) 0) ->
        2 <= Z.abs (c - get (video_cars video_stats) 0) ->
        w <> get (video_weapon video_stats) false ->
        score (score_consistency claims video_stats) = 0).
Proof.
  destruct (score_consistency_unfold claims video_stats) as [Hs _].
  cbv zeta in Hs. split.
  - pose proof (penalty_count_range (claim_people claims)
                  (get (video_people video_stats) 0)).
    pose proof (penalty_count_range (claim_cars claims)
                  (get (video_cars video_stats) 0)).
    pose proof (penalty_weapon_range (claim_weapon claims)
                  (get (video_weapon video_stats) false)).
    lia.
  - intros p c w Hp Hc Hw Dp Dc Dw. rewrite Hs, Hp, Hc, Hw.
    cbn [penalty_count penalty_weapon].
    destruct (documented_count_table p (get (video_people video_stats) 0))
      as [_ [_ ->]]; [| exact Dp].
    destruct (documented_count_table c (get (video_cars video_stats) 0))
      as [_ [_ ->]]; [| exact Dc].
    destruct (documented_weapon_table w (get (video_weapon video_stats) false))
      as [_ ->]; [| exact Dw].
    reflexivity.
Qed.

Lemma score_in_range_witness :
  let claims := mkClaims (Some 5) (Some 0) (Some false) in
  let video_stats := mkVideoStats (Some 2) (Some 3) (Some true) in
  0 <= score (score_consistency claims video_stats) <= 100
  /\ score (score_consistency claims video_stats) = 0.
Proof.
  intros claims video_stats.
  pose proof (score_in_range claims video_stats) as [Hr Hz].
  split; [exact Hr |].
  apply (Hz 5 0 false); try reflexivity.
  - vm_compute; discriminate.
  - vm_compute; discriminate.
  - discriminate.
Defined.

(** C5. The details hold an entry for a claim type exactly when that claim
    field is set, whatever the video side holds; the entries come in the
    order people, cars, weapon, so there are at most three; with no claim
    field set the details are empty and the score is exactly 100. *)
Theorem details_follow_claims (claims : Claims) (video_stats : VideoStats) :
  map claim_type (details (score_consistency claims video_stats))
    = set_fields claims
  /\ (forall ty : ClaimType,
        In ty (map claim_type (details (score_consistency claims video_stats)))
        <-> is_set claims ty)
  /\ (List.length (details (score_consistency claims video_stats)) <= 3)%nat
  /\ (claim_people claims = None ->
      claim_cars claims = None ->
      claim_weapon claims = None ->
      score_consistency claims video_stats = mkScoreResult 100 []).
Proof.
  destruct (score_consistency_unfold claims video_stats) as [_ Hd].
  cbv zeta in Hd.
  assert (Ht : map claim_type (details (score_consistency claims video_stats))
               = set_fields claims).
  { replace (map claim_type (details (score_consistency claims video_stats)))
      with (map (fun v => fst (fst (fst v)))
              (map verdict (details (score_consistency claims video_stats))))
      by (rewrite map_map; reflexivity).
    rewrite Hd. unfold set_fields.
    destruct claims as [[p |] [c |] [w |]]; reflexivity. }
  split; [exact Ht |]. split; [| split].
  - intros ty. rewrite Ht. unfold set_fields, is_set.
    destruct claims as [[p |] [c |] [w |]], ty; cbn;
      intuition (try discriminate; try congruence).
  - rewrite <- (length_map claim_type), Ht. unfold set_fields.
    destruct claims as [[p |] [c |] [w |]]; cbn; lia.
  - intros Hp Hc Hw. destruct claims as [p c w]. cbn in Hp, Hc, Hw.
    subst. reflexivity.
Qed.

Lemma details_follow_claims_witness :
  let claims := mkClaims None (Some 2) None in
  let video_stats := mkVideoStats None None None in
  map claim_type (details (score_consistency claims video_stats)) = [cars]
  /\ (In cars (map claim_type (details (score_consistency claims video_stats)))
      <-> is_set claims cars)
  /\ score_consistency (mkClaims None None None) video_stats
     = mkScoreResult 100 [].
Proof.
  intros claims video_stats.
  pose proof (details_follow_claims claims video_stats) as [Ht [Hi _]].
  split; [exact Ht |]. split; [exact (Hi cars) |].
  pose proof (details_follow_claims (mkClaims None None None) video_stats)
    as [_ [_ [_ Hn]]].
  apply Hn; reflexivity.
Defined.

(** C10. A key missing from [video_stats] does not make the scoring fail: a
    numeric claim is compared with the default 0 and a weapon claim with the
    default [False], and the detail is produced as usual. *)
Theorem missing_video_key_defaults (claims : Claims)
    (vp vc : option Z) (vw : option bool) :
  score_consistency claims (mkVideoStats vp vc vw)
    = score_consistency claims
        (mkVideoStats (Some (get vp 0)) (Some (get vc 0)) (Some (get vw false)))
  /\ (forall n : Z,
        claim_people claims = Some n ->
        In (people, VInt n, VInt 0, fst (documented_count n 0))
           (map verdict (details (score_consistency claims
                                    (mkVideoStats None vc vw)))))
  /\ (forall n : Z,
        claim_cars claims = Some n ->
        In (cars, VInt n, VInt 0, fst (documented_count n 0))
           (map verdict (details (score_consistency claims
                                    (mkVideoStats vp None vw)))))
  /\ (forall b : bool,
        claim_weapon claims = Some b ->
        In (weapon, VBool b, VBool false, fst (documented_weapon b false))
           (map verdict (details (score_consistency claims
                                    (mkVideoStats vp vc None))))).
Proof.
  split; [reflexivity |].
  split; [| split]; intros x Hx.
  - destruct (score_consistency_unfold claims (mkVideoStats None vc vw))
      as [_ ->].
    cbn [video_people get]. rewrite Hx. left. reflexivity.
  - destruct (score_consistency_unfold claims (mkVideoStats vp None vw))
      as [_ ->].
    cbn [video_cars get]. rewrite Hx.
    apply in_or_app. right. left. reflexivity.
  - destruct (score_consistency_unfold claims (mkVideoStats vp vc None))
      as [_ ->].
    cbn [video_weapon get]. rewrite Hx.
    apply in_or_app. right. apply in_or_app. right. left. reflexivity.
Qed.

Lemma missing_video_key_defaults_witness :
  let claims := mkClaims (Some 1) (Some 0) (Some true) in
  score_consistency claims (mkVideoStats None None None)
    = score_consistency claims (mkVideoStats (Some 0) (Some 0) (Some false))
  /\ In (people, VInt 1, VInt 0, partial)
        (map verdict (details (score_consistency claims
                                 (mkVideoStats None None None))))
  /\ In (cars, VInt 0, VInt 0, supported)
        (map verdict (details (score_consistency claims
                                 (mkVideoStats None None None))))
  /\ In (weapon, VBool true, VBool false, unsupported)
        (map verdict (details (score_consistency claims
                                 (mkVideoStats None None None)))).
Proof.
  intros claims.
  pose proof (missing_video_key_defaults claims None None None)
    as [He [Hp [Hc Hw]]].
  split; [exact He |].
  split; [exact (Hp 1 eq_refl) |].
  split; [exact (Hc 0 eq_refl) | exact (Hw true eq_refl)].
Defined.

(** *** Further properties of [score_consistency] *)

Lemma penalty_count_zero ty claim video :
  penalty_count claim video = 0
  <-> Forall (fun x => snd x = supported) (expected_count ty claim video).
Proof.
  destruct claim as [n |]; cbn [penalty_count expected_count].
  - unfold documented_count.
    destruct (_ =? 0); [| destruct (_ =? 1)]; cbn [fst snd]; split; intros H;
      try discriminate; try reflexivity;
      try (constructor; [reflexivity | constructor]);
      inversion H as [| x l Hx Hl]; discriminate.
  - split; [constructor | reflexivity].
Qed.

Lemma penalty_weapon_zero claim video :
  penalty_weapon claim video = 0
  <-> Forall (fun x => snd x = supported) (expected_weapon claim video).
Proof.
  destruct claim as [b |]; cbn [penalty_weapon expected_weapon].
  - unfold documented_weapon.
    destruct (Bool.eqb b video); cbn [fst snd]; split; intros H;
      try discriminate; try reflexivity;
      try (constructor; [reflexivity | constructor]);
      inversion H as [| x l Hx Hl]; discriminate.
  - split; [constructor | reflexivity].
Qed.

(** The score is 100 exactly when every claim that was scored is
    supported: any partial or unsupported detail costs points, and nothing
    else does. *)
Theorem full_score_iff_all_supported (claims : Claims)
    (video_stats : VideoStats) :
  score (score_consistency claims video_stats) = 100
  <-> forall d, In d (details (score_consistency claims video_stats)) ->
                result d = supported.
Proof.
  destruct (score_consistency_unfold claims video_stats) as [Hs Hd].
  cbv zeta in Hs, Hd.
  pose proof (penalty_count_range (claim_people claims)
                (get (video_people video_stats) 0)) as R1.
  pose proof (penalty_count_range (claim_cars claims)
                (get (video_cars video_stats) 0)) as R2.
  pose proof (penalty_weapon_range (claim_weapon claims)
                (get (video_weapon video_stats) false)) as R3.
  assert (Hall :
    (forall d, In d (details (score_consistency claims video_stats)) ->
               result d = supported)
    <-> Forall (fun x => snd x = supported)
          (map verdict (details (score_consistency claims video_stats)))).
  { rewrite Forall_map, Forall_forall. reflexivity. }
  rewrite Hall, Hd, !Forall_app.
  rewrite <- !(penalty_count_zero people), <- !(penalty_count_zero cars),
    <- penalty_weapon_zero.
  rewrite Hs. lia.
Qed.

(** The video-side value of a subject the text does not mention has no
    influence on the result. *)
Theorem unset_claims_ignore_video (claims : Claims)
    (video_stats video_stats' : VideoStats) :
  (claim_people claims <> None ->
   video_people video_stats = video_people video_stats') ->
  (claim_cars claims <> None ->
   video_cars video_stats = video_cars video_stats') ->
  (claim_weapon claims <> None ->
   video_weapon video_stats = video_weapon video_stats') ->
  score_consistency claims video_stats = score_consistency claims video_stats'.
Proof.
  intros Hp Hc Hw. unfold score_consistency.
  destruct claims as [p c w]. cbn [claim_people claim_cars claim_weapon] in *.
  assert (E1 : forall st, score_count people "people" p
                            (video_people video_stats) st
                          = score_count people "people" p
                              (video_people video_stats') st).
  { intros st. destruct p as [n |]; [rewrite Hp by discriminate |];
      reflexivity. }
  assert (E2 : forall st, score_count cars "cars" c
                            (video_cars video_stats) st
                          = score_count cars "cars" c
                              (video_cars video_stats') st).
  { intros st. destruct c as [n |]; [rewrite Hc by discriminate |];
      reflexivity. }
  assert (E3 : forall st, score_weapon w (video_weapon video_stats) st
                          = score_weapon w (video_weapon video_stats') st).
  { intros st. destruct w as [b |]; [rewrite Hw by discriminate |];
      destruct st; reflexivity. }
  now rewrite E1, E2, E3.
Qed.

Lemma unset_claims_ignore_video_witness :
  score_consistency (mkClaims (Some 2) None None)
    (mkVideoStats (Some 3) (Some 9) (Some true))
  = score_consistency (mkClaims (Some 2) None None)
      (mkVideoStats (Some 3) None None).
Proof.
  apply unset_claims_ignore_video; cbn; intros H;
    [reflexivity | now destruct H | now destruct H].
Defined.

Lemma penalty_count_stated (c c' : option Z) (video : Z) :
  (forall n, c = Some n -> c' = Some n) ->
  penalty_count c video <= penalty_count c' video.
Proof.
  intros H. destruct c as [n |].
  - now rewrite (H n eq_refl).
  - apply (penalty_count_range c' video).
Qed.

Lemma penalty_weapon_stated (c c' : option bool) (video : bool) :
  (forall b, c = Some b -> c' = Some b) ->
  penalty_weapon c video <= penalty_weapon c' video.
Proof.
  intros H. destruct c as [b |].
  - now rewrite (H b eq_refl).
  - apply (penalty_weapon_range c' video).
Qed.

(** Saying more never raises the score: when a text states everything
    another text states, with the same values, its score against the same
    video is at most the other's. *)
Theorem more_claims_lower_score (claims claims' : Claims)
    (video_stats : VideoStats) :
  stated_in claims claims' ->
  score (score_consistency claims' video_stats)
    <= score (score_consistency claims video_stats).
Proof.
  intros (Hp & Hc & Hw).
  destruct (score_consistency_unfold claims video_stats) as [-> _].
  destruct (score_consistency_unfold claims' video_stats) as [-> _].
  cbv zeta.
  pose proof (penalty_count_stated _ _ (get (video_people video_stats) 0) Hp).
  pose proof (penalty_count_stated _ _ (get (video_cars video_stats) 0) Hc).
  pose proof (penalty_weapon_stated _ _
                (get (video_weapon video_stats) false) Hw).
  lia.
Qed.

Lemma more_claims_lower_score_witness :
  score (score_consistency (mkClaims (Some 2) (Some 5) None)
           (mkVideoStats (Some 2) (Some 1) (Some false)))
  <= score (score_consistency (mkClaims (Some 2) None None)
              (mkVideoStats (Some 2) (Some 1) (Some false))).
Proof.
  apply more_claims_lower_score. unfold stated_in. cbn.
  repeat split; intros x H; (exact H || discriminate).
Defined.

End ScoringFacts.

(** ** Claim extraction *)

Module TextParserFacts.
Import Re TextParser.

(** C9. The two documented examples: the first text gives people = 3,
    cars = 2 and weapon_present = false; in the second the cars field stays
    unset, the word before the noun being outside the quantity vocabulary
    and not read as 1. *)
Theorem extract_claims_examples :
  extract_claims
    "There were three people and two cars in the parking lot. No weapons were present."
    = mkClaims (Some 3) (Some 2) (Some false)
  /\ claim_cars (extract_claims "A single car was parked with no people around.")
     = None
  /\ word_to_number "single" = None
  /\ int "single" = None.
Proof.
  repeat split; vm_compute; reflexivity.
Qed.

(** C3, evaluated on the code.  On a text that negates one of the keywords
    pistol, rifle or handgun the documented negation pattern matches, yet
    the code reports a weapon as present; and a negation word followed by a
    longer word that merely starts with a keyword sets the field to false
    although no weapon keyword occurs in the text. *)
Theorem extract_claims_negated_pistol :
  any_found documented_negative_patterns (lower "No pistol was found.") = true
  /\ claim_weapon (extract_claims "No pistol was found.") = Some true
  /\ any_found weapon_positive_patterns (lower "There were no gunmen.") = false
  /\ claim_weapon (extract_claims "There were no gunmen.") = Some false.
Proof.
  repeat split; vm_compute; reflexivity.
Qed.

(** *** Characters and case *)

Lemma lower_char_idempotent (c : ascii) :
  lower_char (lower_char c) = lower_char c.
Proof.
  destruct c as [[] [] [] [] [] [] [] []]; vm_compute; reflexivity.
Qed.

Lemma is_space_lower_char (c : ascii) : is_space (lower_char c) = is_space c.
Proof.
  destruct c as [[] [] [] [] [] [] [] []]; vm_compute; reflexivity.
Qed.

Lemma lower_idempotent (s : string) : lower (lower s) = lower s.
Proof.
  induction s as [| c s IH]; cbn [lower]; [reflexivity |].
  now rewrite lower_char_idempotent, IH.
Qed.

Lemma blank_lower (s : string) : blank (lower s) = blank s.
Proof.
  induction s as [| c s IH]; cbn [lower blank]; [reflexivity |].
  now rewrite is_space_lower_char, IH.
Qed.

(** *** Stripping *)

Lemma lstrip_blank (s : string) : blank s = true -> lstrip s = EmptyString.
Proof.
  induction s as [| c s IH]; cbn [blank lstrip]; [reflexivity |].
  intros H. apply andb_prop in H as [Hc Hs]. rewrite Hc. now apply IH.
Qed.

Lemma lstrip_visible (s : string) :
  blank s = false ->
  exists c r, lstrip s = String c r /\ is_space c = false.
Proof.
  induction s as [| c s IH]; cbn [blank lstrip]; [discriminate |].
  destruct (is_space c) eqn:Hc; cbn [andb]; intros H.
  - now apply IH.
  - now exists c, s.
Qed.

Lemma rstrip_visible (c : ascii) (r : string) :
  is_space c = false -> rstrip (String c r) <> EmptyString.
Proof.
  intros Hc. cbn [rstrip]. destruct (rstrip r); [rewrite Hc |]; discriminate.
Qed.

(** [text.strip()] is empty exactly for a blank text. *)
Lemma strip_blank (s : string) : strip s = EmptyString <-> blank s = true.
Proof.
  unfold strip. split.
  - intros H. destruct (blank s) eqn:B; [reflexivity |].
    destruct (lstrip_visible s B) as (c & r & E & Hc).
    rewrite E in H. now apply rstrip_visible in H.
  - intros B. now rewrite lstrip_blank.
Qed.

(** [extract_claims] with its guard read as a test on the text. *)
Lemma extract_claims_unfold (text : string) :
  extract_claims text
    = if blank text then mkClaims None None None
      else
        let text_lower := lower text in
        let has_positive := any_found weapon_positive_patterns text_lower in
        let has_negative := any_found weapon_negative_patterns text_lower in
        mkClaims
          (first_count people_patterns text_lower)
          (first_count car_patterns text_lower)
          (if has_positive && negb has_negative then Some true
           else if has_negative then Some false
           else None).
Proof.
  unfold extract_claims. destruct text as [| c t]; [reflexivity |].
  destruct (blank (String c t)) eqn:B.
  - apply strip_blank in B. now rewrite B.
  - destruct (strip (String c t)) eqn:E; [| reflexivity].
    apply strip_blank in E. congruence.
Qed.

(** *** Further properties of [word_to_number] and [extract_claims] *)

Lemma dict_get_in (d : list (string * Z)) (key : string) (v : Z) :
  dict_get d key = Some v -> exists k, In (k, v) d.
Proof.
  induction d as [| [k w] d IH]; cbn [dict_get]; [discriminate |].
  destruct (String.eqb k key).
  - intros H. injection H as <-. exists k. now left.
  - intros H. destruct (IH H) as (k' & Hin). exists k'. now right.
Qed.

Lemma word_numbers_range :
  Forall (fun kv => 0 <= snd kv <= 20) word_numbers.
Proof. unfold word_numbers. repeat constructor; cbn; lia. Qed.

Lemma word_to_number_bounds (word : string) :
  word_to_number (lower word) = word_to_number word
  /\ (forall n, word_to_number word = Some n -> 0 <= n <= 20).
Proof.
  unfold word_to_number. split; [now rewrite lower_idempotent |].
  intros n H. destruct (dict_get_in _ _ _ H) as (k & Hin).
  pose proof word_numbers_range as R. rewrite Forall_forall in R.
  exact (R _ Hin).
Qed.

(** [word_to_number] ignores case and only ever answers a number from 0
    to 20. *)
Theorem word_to_number_range (word : string) :
  word_to_number (lower word) = word_to_number word
  /\ (forall n, word_to_number word = Some n -> 0 <= n <= 20).
Proof. exact (word_to_number_bounds word). Qed.

Lemma word_to_number_range_witness :
  word_to_number "TWELVE" = Some 12 /\ 0 <= 12 <= 20.
Proof.
  destruct (word_to_number_range "TWELVE") as [Hl Hr].
  split; [rewrite <- Hl; reflexivity |].
  apply Hr. rewrite <- Hl. reflexivity.
Defined.

(** A text made of whitespace only, the empty text included, yields no
    claim at all. *)
Theorem extract_claims_blank (text : string) :
  blank text = true -> extract_claims text = mkClaims None None None.
Proof.
  intros B. now rewrite extract_claims_unfold, B.
Qed.

Lemma extract_claims_blank_witness :
  extract_claims "   " = mkClaims None None None.
Proof. apply extract_claims_blank. reflexivity. Defined.

(** Extraction does not depend on the case of the letters: a text and its
    lower-case form give the same claims. *)
Theorem extract_claims_ignores_case (text : string) :
  extract_claims (lower text) = extract_claims text.
Proof.
  rewrite !extract_claims_unfold, blank_lower, lower_idempotent.
  reflexivity.
Qed.

Lemma int_digits_nonneg (s : string) :
  forall acc n, 0 <= acc -> int_digits s acc = Some n -> 0 <= n.
Proof.
  induction s as [| c s IH]; cbn [int_digits]; intros acc n Hacc H.
  - now injection H as <-.
  - destruct (is_digit c); [| discriminate].
    pose proof (N2Z.is_nonneg (code c - 48)).
    apply (IH _ n) in H; [exact H | lia].
Qed.

Lemma first_count_nonneg (patterns : list regex) (text_lower : string) (n : Z) :
  first_count patterns text_lower = Some n -> 0 <= n.
Proof.
  induction patterns as [| pattern rest IH]; cbn [first_count];
    [discriminate |].
  destruct (search pattern text_lower) as [m |]; [| exact IH].
  destruct (word_to_number (group m 1)) as [k |] eqn:W.
  - intros H. injection H as <-.
    now apply (proj2 (word_to_number_bounds (group m 1))).
  - destruct (int (group m 1)) as [k |] eqn:I; [| exact IH].
    intros H. injection H as <-. unfold int in I.
    destruct (group m 1); [discriminate |].
    eapply int_digits_nonneg; [| exact I]. lia.
Qed.

(** A count that [extract_claims] sets is never negative. *)
Theorem extract_claims_counts_nonneg (text : string) :
  (forall n, claim_people (extract_claims text) = Some n -> 0 <= n)
  /\ (forall n, claim_cars (extract_claims text) = Some n -> 0 <= n).
Proof.
  rewrite extract_claims_unfold.
  destruct (blank text); cbn [claim_people claim_cars];
    split; intros n H; try discriminate;
    now apply first_count_nonneg in H.
Qed.

Lemma extract_claims_counts_nonneg_witness :
  claim_people (extract_claims "I saw 12 men.") = Some 12 /\ 0 <= 12.
Proof.
  split; [vm_compute; reflexivity |].
  apply (proj1 (extract_claims_counts_nonneg "I saw 12 men.")).
  vm_compute. reflexivity.
Defined.

(** *** The matcher: success does not depend on the captures *)

Lemma plus_mono {R R' : Type} (p : ascii -> bool) (s : string)
    (k : option ascii -> string -> option R)
    (k' : option ascii -> string -> option R') :
  (forall q s1, k q s1 <> None -> k' q s1 <> None) ->
  plus p s k <> None -> plus p s k' <> None.
Proof.
  intros Hk. induction s as [| c s IH]; cbn [plus]; [auto |].
  destruct (p c); [| auto].
  destruct (plus p s k) as [x |] eqn:E.
  - intros _. destruct (plus p s k'); [discriminate |].
    exfalso. now apply IH.
  - intros H. destruct (plus p s k'); [discriminate | now apply Hk].
Qed.

(** If the rest of the pattern succeeds wherever another rest does, so
    does the whole pattern. *)
Lemma matches_mono (r : regex) :
  forall prev s caps caps' k k',
    (forall q s1 c c', k q s1 c <> None -> k' q s1 c' <> None) ->
    matches r prev s caps k <> None ->
    matches r prev s caps' k' <> None.
Proof.
  induction r as [w | p | | r1 IH1 r2 IH2 | r1 IH1 r2 IH2 | n r IH];
    intros prev s caps caps' k k' Hk; cbn [matches].
  - destruct (lit w prev s) as [[q s1] |]; [apply Hk | auto].
  - apply plus_mono. intros q s1. apply Hk.
  - destruct (Bool.eqb _ _); [auto | apply Hk].
  - apply IH1. intros q s1 c c'. apply IH2. exact Hk.
  - destruct (matches r1 prev s caps k) as [m |] eqn:E.
    + intros _. destruct (matches r1 prev s caps' k') eqn:E';
        [discriminate |].
      exfalso. apply (IH1 prev s caps caps' k k' Hk); [| exact E'].
      rewrite E. discriminate.
    + intros H. destruct (matches r1 prev s caps' k'); [discriminate |].
      now apply (IH2 prev s caps caps' k k' Hk).
  - apply IH. intros q s1 c c'. apply Hk.
Qed.

Lemma cat_mono (r t t' : regex) :
  (forall q s c c', matches t q s c done <> None ->
                    matches t' q s c' done <> None) ->
  forall q s c c',
    matches (r ;; t) q s c done <> None ->
    matches (r ;; t') q s c' done <> None.
Proof.
  intros H q s c c'. cbn [matches]. apply matches_mono. exact H.
Qed.

Lemma search_from_mono (r r' : regex) :
  (forall q s, matches r q s [] done <> None ->
               matches r' q s [] done <> None) ->
  forall s q, search_from r q s <> None -> search_from r' q s <> None.
Proof.
  intros H. induction s as [| c s IH]; intros q; cbn [search_from];
    change (fun (_ : option ascii) (_ : string) (caps : captures) => Some caps)
      with done.
  - destruct (matches r q EmptyString [] done) eqn:E; [| auto].
    intros _. destruct (matches r' q EmptyString [] done) eqn:E';
      [discriminate |].
    exfalso. apply (H q EmptyString); [rewrite E; discriminate | exact E'].
  - destruct (matches r q (String c s) [] done) eqn:E.
    + intros _. destruct (matches r' q (String c s) [] done) eqn:E';
        [discriminate |].
      exfalso. apply (H q (String c s)); [rewrite E; discriminate | exact E'].
    + intros Hs. destruct (matches r' q (String c s) [] done);
        [discriminate | now apply IH].
Qed.

(** *** The matcher: alternatives of words *)

Lemma fold_alt_some (ws : list string) :
  forall r0 q s c k m,
    matches (fold_left (fun r w' => Alt r (Lit w')) ws r0) q s c k = Some m ->
    matches r0 q s c k = Some m
    \/ exists w, In w ws /\ matches (Lit w) q s c k = Some m.
Proof.
  induction ws as [| w ws IH]; intros r0 q s c k m; cbn [fold_left];
    [now left |].
  intros H. apply IH in H as [H | (w' & Hin & H)].
  - cbn [matches] in H. destruct (matches r0 q s c k) as [m' |] eqn:E.
    + left. exact H.
    + right. exists w. split; [now left | exact H].
  - right. exists w'. split; [now right | exact H].
Qed.

Lemma fold_alt_success (ws : list string) :
  forall r0 q s c k,
    matches r0 q s c k <> None
    \/ (exists w, In w ws /\ matches (Lit w) q s c k <> None) ->
    matches (fold_left (fun r w' => Alt r (Lit w')) ws r0) q s c k <> None.
Proof.
  induction ws as [| w ws IH]; intros r0 q s c k; cbn [fold_left].
  - intros [H | (w & [] & _)]. exact H.
  - intros H. apply IH. destruct H as [H | (w' & [<- | Hin] & H)].
    + left. cbn [matches]. destruct (matches r0 q s c k);
        [discriminate | contradiction].
    + left. cbn [matches]. destruct (matches r0 q s c k);
        [discriminate | exact H].
    + right. now exists w'.
Qed.

Lemma words_some (w0 : string) (ws : list string) q s c k m :
  matches (words w0 ws) q s c k = Some m ->
  exists w, In w (w0 :: ws) /\ matches (Lit w) q s c k = Some m.
Proof.
  intros H. apply fold_alt_some in H as [H | (w & Hin & H)].
  - exists w0. split; [now left | exact H].
  - exists w. split; [now right | exact H].
Qed.

Lemma words_success (w w0 : string) (ws : list string) q s c k :
  In w (w0 :: ws) ->
  matches (Lit w) q s c k <> None ->
  matches (words w0 ws) q s c k <> None.
Proof.
  intros [<- | Hin] H; apply fold_alt_success.
  - now left.
  - right. now exists w.
Qed.

(** A single noun at the end of a pattern matches only where the group of
    nouns that contains it does. *)
Lemma noun_in_group (w w0 : string) (ws : list string) (n : nat) :
  In w (w0 :: ws) ->
  forall q s c c',
    matches (Lit w ;; Bnd) q s c done <> None ->
    matches (Grp n (words w0 ws) ;; Bnd) q s c' done <> None.
Proof.
  intros Hin q s c c'. cbn [matches]. intros H.
  apply (words_success w); [exact Hin |].
  cbn [matches]. destruct (lit w q s) as [[q1 s1] |]; [| exact H].
  destruct (Bool.eqb _ _); [exact H | discriminate].
Qed.

(** *** The matcher: what a group captures *)

Lemma length_append (a b : string) :
  String.length (a ++ b) = (String.length a + String.length b)%nat.
Proof. induction a as [| c a IH]; cbn; [reflexivity | now rewrite IH]. Qed.

Lemma substring_prefix (a b : string) :
  substring 0 (String.length a) (a ++ b) = a.
Proof.
  induction a as [| c a IH]; cbn.
  - destruct b; reflexivity.
  - now rewrite IH.
Qed.

Lemma consumed_append (a b : string) : consumed (a ++ b) b = a.
Proof.
  unfold consumed. rewrite length_append.
  replace (String.length a + String.length b - String.length b)%nat
    with (String.length a) by lia.
  apply substring_prefix.
Qed.

Lemma lit_sound (w : string) :
  forall q s q1 s1, lit w q s = Some (q1, s1) -> s = (w ++ s1)%string.
Proof.
  induction w as [| c w IH]; intros q s q1 s1; cbn [lit].
  - intros H. now injection H as _ <-.
  - destruct s as [| d s]; [discriminate |].
    destruct (Ascii.eqb_spec c d) as [<- | _]; [| discriminate].
    intros H. apply IH in H. cbn. now rewrite <- H.
Qed.

(** A greedy [c+] hands over after a non-empty run of the class. *)
Lemma plus_sound {R : Type} (p : ascii -> bool) (s : string)
    (k : option ascii -> string -> option R) (m : R) :
  plus p s k = Some m ->
  exists taken q s1,
    s = (taken ++ s1)%string
    /\ taken <> EmptyString
    /\ all_in p taken = true
    /\ k q s1 = Some m.
Proof.
  induction s as [| c s IH]; cbn [plus]; [discriminate |].
  destruct (p c) eqn:Hc; [| discriminate].
  destruct (plus p s k) as [m' |] eqn:E.
  - intros H. injection H as <-.
    destruct (IH eq_refl) as (taken & q & s1 & -> & _ & Hall & Hk).
    exists (String c taken), q, s1. cbn [all_in]. rewrite Hc, Hall.
    repeat split; [discriminate | exact Hk].
  - intros H. exists (String c EmptyString), (Some c), s.
    cbn [all_in]. rewrite Hc. repeat split; [discriminate | exact H].
Qed.

(** A pattern without group [n] leaves what group [n] holds. *)
Lemma keeps_group (n : nat) (r : regex) :
  has_group n r = false ->
  forall q s c k m,
    matches r q s c k = Some m ->
    exists q1 s1 c1, group c1 n = group c n /\ k q1 s1 c1 = Some m.
Proof.
  induction r as [w | p | | r1 IH1 r2 IH2 | r1 IH1 r2 IH2 | i r IH];
    cbn [has_group]; intros Hg q s c k m; cbn [matches].
  - destruct (lit w q s) as [[q1 s1] |]; [| discriminate].
    intros H. now exists q1, s1, c.
  - intros H. apply plus_sound in H as (_ & q1 & s1 & _ & _ & _ & H).
    now exists q1, s1, c.
  - destruct (Bool.eqb _ _); [discriminate |]. intros H. now exists q, s, c.
  - apply orb_false_elim in Hg as [G1 G2]. intros H.
    apply (IH1 G1) in H as (q1 & s1 & c1 & E1 & H).
    apply (IH2 G2) in H as (q2 & s2 & c2 & E2 & H).
    exists q2, s2, c2. split; [congruence | exact H].
  - apply orb_false_elim in Hg as [G1 G2].
    destruct (matches r1 q s c k) as [m' |] eqn:E.
    + intros H. injection H as <-. now apply (IH1 G1) in E.
    + now apply IH2.
  - apply orb_false_elim in Hg as [Gi G]. intros H.
    apply (IH G) in H as (q1 & s1 & c1 & E1 & H).
    exists q1, s1, ((i, consumed s s1) :: c1). split; [| exact H].
    cbn [group]. now rewrite Gi.
Qed.

Lemma int_digits_total (s : string) :
  forall acc, all_in is_digit s = true -> int_digits s acc <> None.
Proof.
  induction s as [| c s IH]; intros acc; cbn [all_in int_digits];
    [discriminate |].
  intros H. apply andb_prop in H as [Hc Hs]. rewrite Hc. now apply IH.
Qed.

Lemma resolves_digits (taken : string) :
  taken <> EmptyString -> all_in is_digit taken = true ->
  resolves taken = true.
Proof.
  intros Hne Hall. unfold resolves.
  destruct (word_to_number taken); [reflexivity |].
  unfold int. destruct taken as [| c t]; [congruence |].
  pose proof (int_digits_total (String c t) 0 Hall) as H.
  now destruct (int_digits (String c t) 0).
Qed.

(** Whatever the quantity group captures resolves to a number. *)
Lemma quantity_sound q s c k m :
  matches quantity q s c k = Some m ->
  exists w q1 s1,
    resolves w = true /\ k q1 s1 ((1%nat, w) :: c) = Some m.
Proof.
  unfold quantity. cbn [matches].
  match goal with
  | |- context [matches (words ?w0 ?ws) q s c ?K] =>
      destruct (matches (words w0 ws) q s c K) as [m' |] eqn:E
  end.
  - intros H. injection H as <-.
    apply words_some in E as (w & Hin & E). cbn [matches] in E.
    destruct (lit w q s) as [[q1 s1] |] eqn:L; [| discriminate].
    apply lit_sound in L. subst s. rewrite consumed_append in E.
    exists w, q1, s1. split; [| exact E].
    cbn [In] in Hin.
    repeat (destruct Hin as [<- | Hin]; [reflexivity |]). destruct Hin.
  - intros H. apply plus_sound in H as (taken & q1 & s1 & -> & Hne & Hall & H).
    rewrite consumed_append in H.
    exists taken, q1, s1. split; [now apply resolves_digits | exact H].
Qed.

Lemma search_from_sound (r : regex) :
  forall s q m,
    search_from r q s = Some m ->
    exists q1 s1, matches r q1 s1 [] done = Some m.
Proof.
  induction s as [| c s IH]; intros q m; cbn [search_from];
    change (fun (_ : option ascii) (_ : string) (caps : captures) => Some caps)
      with done.
  - destruct (matches r q EmptyString [] done) eqn:E; [| discriminate].
    intros H. injection H as <-. now exists q, EmptyString.
  - destruct (matches r q (String c s) [] done) eqn:E.
    + intros H. injection H as <-. now exists q, (String c s).
    + apply IH.
Qed.

(** *** The counting patterns *)

Lemma has_group_fold (n : nat) (ws : list string) :
  forall r0, has_group n r0 = false ->
             has_group n (fold_left (fun r w' => Alt r (Lit w')) ws r0) = false.
Proof.
  induction ws as [| w ws IH]; intros r0 H; cbn [fold_left]; [exact H |].
  apply IH. cbn [has_group]. now rewrite H.
Qed.

(** Where the first pattern of a list matches, its quantity resolves. *)
Lemma first_pattern_resolves (noun : string) (nouns : list string)
    (text_lower : string) (m : captures) :
  search (Bnd ;; quantity ;; Plus is_space ;; Grp 2 (words noun nouns) ;; Bnd)
    text_lower = Some m ->
  resolves (group m 1) = true.
Proof.
  unfold search. intros H.
  apply search_from_sound in H as (q & s & H). cbn [matches] in H.
  destruct (Bool.eqb (word_before q) (word_after s)); [discriminate |].
  change (matches quantity q s []
            (fun q1 s1 c1 =>
               matches (Plus is_space ;; Grp 2 (words noun nouns) ;; Bnd)
                 q1 s1 c1 done) = Some m) in H.
  apply quantity_sound in H as (w & q1 & s1 & Hw & H).
  apply (keeps_group 1) in H as (q2 & s2 & c2 & E & H).
  - injection H as <-. cbn [group Nat.eqb] in E. now rewrite E.
  - cbn [has_group Nat.eqb orb]. unfold words.
    now rewrite has_group_fold.
Qed.

(** A pattern that ends in one noun of the group matches only where the
    pattern with the whole group does. *)
Lemma single_noun_pattern (noun : string) (nouns : list string) (a : string) :
  In a (noun :: nouns) ->
  forall s q,
    search_from (Bnd ;; quantity ;; Plus is_space ;; Lit a ;; Bnd) q s
      <> None ->
    search_from
      (Bnd ;; quantity ;; Plus is_space ;; Grp 2 (words noun nouns) ;; Bnd)
      q s <> None.
Proof.
  intros Hin. apply search_from_mono. intros q s.
  apply (cat_mono Bnd). apply (cat_mono quantity).
  apply (cat_mono (Plus is_space)). now apply noun_in_group.
Qed.

Lemma counting_patterns_first (noun : string) (nouns : list string)
    (a b : string) (text_lower : string) :
  In a (noun :: nouns) -> In b (noun :: nouns) ->
  first_count (counting_patterns noun nouns a b) text_lower
    = first_count (firstn 1 (counting_patterns noun nouns a b)) text_lower.
Proof.
  intros Ha Hb. unfold counting_patterns. cbn [firstn first_count].
  destruct (search (Bnd ;; quantity ;; Plus is_space ;;
                    Grp 2 (words noun nouns) ;; Bnd) text_lower)
    as [m |] eqn:E.
  - apply first_pattern_resolves in E. unfold resolves in E.
    destruct (word_to_number (group m 1)); [reflexivity |].
    destruct (int (group m 1)); [reflexivity | discriminate].
  - assert (Hnone : forall w, In w (noun :: nouns) ->
              search (Bnd ;; quantity ;; Plus is_space ;; Lit w ;; Bnd)
                text_lower = None).
    { intros w Hw.
      destruct (search (Bnd ;; quantity ;; Plus is_space ;; Lit w ;; Bnd)
                  text_lower) eqn:Ew; [| reflexivity].
      exfalso.
      apply (single_noun_pattern noun nouns w Hw text_lower None);
        [unfold search in Ew; rewrite Ew; discriminate | exact E]. }
    now rewrite (Hnone a Ha), (Hnone b Hb).
Qed.

(** Only the first pattern of each list ever decides a count: where it
    matches, its quantity always resolves, and where it does not match the
    second and the third pattern do not match either.  (Up to 4300
    characters no run of digits is too long for [int].) *)
Theorem later_patterns_never_decide (text_lower : string) :
  (String.length text_lower <= 4300)%nat ->
  first_count people_patterns text_lower
    = first_count (firstn 1 people_patterns) text_lower
  /\ first_count car_patterns text_lower
     = first_count (firstn 1 car_patterns) text_lower.
Proof.
  intros _. split.
  - apply (counting_patterns_first "people"
             ["persons"; "person"; "men"; "women"; "men"; "individuals"]
             "person" "people"); cbn [In]; auto.
  - apply (counting_patterns_first "cars"
             ["car"; "vehicles"; "vehicle"; "trucks"; "truck";
              "automobiles"; "automobile"]
             "car" "cars"); cbn [In]; auto.
Qed.

Lemma later_patterns_never_decide_witness :
  first_count people_patterns "one person and two cars"
    = first_count (firstn 1 people_patterns) "one person and two cars"
  /\ first_count car_patterns "one person and two cars"
     = first_count (firstn 1 car_patterns) "one person and two cars".
Proof.
  apply later_patterns_never_decide. cbn [String.length]. lia.
Defined.

End TextParserFacts.

(** ** Video analysis *)

Module VideoAnalyzerFacts.
Import VideoAnalyzer.
Local Open Scope list_scope.

(** *** The sampling interval *)




(** *** Indexing *)

Lemma getitem_nat {A : Type} (l : list A) (i : nat) :
  (i < List.length l)%nat -> getitem l (Z.of_nat i) = nth_error l i.
Proof.
  intros Hi. unfold getitem.
  replace (Z.of_nat i <? 0) with false by (symmetry; apply Z.ltb_ge; lia).
  replace (0 <=? Z.of_nat i) with true by (symmetry; apply Z.leb_le; lia).
  replace (Z.of_nat i <? Z.of_nat (List.length l)) with true
    by (symmetry; apply Z.ltb_lt; lia).
  cbn [andb]. now rewrite Nat2Z.id.
Qed.

Lemma getitem_last {A : Type} (l : list A) :
  (0 < List.length l)%nat ->
  getitem l (-1) = nth_error l (List.length l - 1).
Proof.
  intros Hl. unfold getitem. cbn [Z.ltb Z.compare].
  replace (0 <=? -1 + Z.of_nat (List.length l)) with true
    by (symmetry; apply Z.leb_le; lia).
  replace (-1 + Z.of_nat (List.length l) <? Z.of_nat (List.length l)) with true
    by (symmetry; apply Z.ltb_lt; lia).
  cbn [andb]. f_equal. lia.
Qed.

Lemma nth_error_in_range {A : Type} (l : list A) (i : nat) :
  (i < List.length l)%nat -> exists x, nth_error l i = Some x.
Proof.
  intros Hi. destruct (nth_error l i) as [x |] eqn:E; [now exists x |].
  apply nth_error_None in E. lia.
Qed.

(** *** Frames whose index is a multiple of the interval *)

Lemma sampled_at_nil {A : Type} (k : Z) (s : nat) :
  sampled_at k s (@nil A) = [].
Proof. reflexivity. Qed.

Lemma sampled_at_cons {A : Type} (k : Z) (s : nat) (x : A) (l : list A) :
  sampled_at k s (x :: l)
    = if Z.of_nat s mod k =? 0
      then x :: sampled_at k (S s) l
      else sampled_at k (S s) l.
Proof.
  unfold sampled_at. cbn [List.length seq combine filter fst].
  destruct (Z.of_nat s mod k =? 0); reflexivity.
Qed.


Section AnalyzerFacts.

Variables Frame Image : Type.
Variable env : Env Frame Image.

(** *** Counting the boxes of one frame *)

Lemma mem_person (k : Z) : mem k person_class_ids = (k =? 0).
Proof. unfold mem. cbn. now rewrite orb_false_r. Qed.

Lemma mem_vehicle (k : Z) :
  mem k vehicle_class_ids = (k =? 2) || (k =? 3) || (k =? 5) || (k =? 7).
Proof. unfold mem. cbn. now rewrite orb_false_r, !orb_assoc. Qed.

Lemma mem_weapon (k : Z) : mem k weapon_class_ids = (k =? 76).
Proof. unfold mem. cbn. now rewrite orb_false_r. Qed.

Lemma triple_eq {A B C : Type} (a a' : A) (b b' : B) (c c' : C) :
  a = a' -> b = b' -> c = c' -> (a, b, c) = (a', b', c').
Proof. now intros -> -> ->. Qed.

Lemma count_class_cons (ids : list Z) (b : Box) (bs : list Box) :
  count_class ids (b :: bs)
    = (if confident b && mem (cls b) ids then 1 else 0) + count_class ids bs.
Proof.
  unfold count_class. cbn [filter].
  destruct (confident b && mem (cls b) ids); cbn [List.length]; lia.
Qed.

(** The loop over the boxes counts, for each class, the confident boxes of
    that class; the three id lists being disjoint, the [elif] chain loses
    nothing. *)
Lemma fold_count_box (bs : list Box) (p c : Z) (w : bool) :
  fold_left count_box bs (p, c, w)
    = (p + count_class person_class_ids bs,
       c + count_class vehicle_class_ids bs,
       w || existsb (fun b => confident b && mem (cls b) weapon_class_ids) bs).
Proof.
  revert p c w. induction bs as [| b bs IH]; intros p c w.
  - cbn. now rewrite !Z.add_0_r, orb_false_r.
  - cbn [fold_left existsb]. rewrite !count_class_cons.
    unfold count_box at 2. fold (confident b).
    rewrite mem_person, mem_vehicle, mem_weapon.
    destruct (confident b); cbn [negb andb].
    + destruct (Z.eqb_spec (cls b) 0) as [E | _];
        [rewrite E; cbn [Z.eqb orb]; rewrite IH; apply triple_eq;
         try lia; reflexivity |].
      destruct (Z.eqb_spec (cls b) 2) as [E | _];
        [rewrite E; cbn [Z.eqb Pos.eqb orb]; rewrite IH; apply triple_eq;
         try lia; reflexivity |].
      destruct (Z.eqb_spec (cls b) 3) as [E | _];
        [rewrite E; cbn [Z.eqb Pos.eqb orb]; rewrite IH; apply triple_eq;
         try lia; reflexivity |].
      destruct (Z.eqb_spec (cls b) 5) as [E | _];
        [rewrite E; cbn [Z.eqb Pos.eqb orb]; rewrite IH; apply triple_eq;
         try lia; reflexivity |].
      destruct (Z.eqb_spec (cls b) 7) as [E | _];
        [rewrite E; cbn [Z.eqb Pos.eqb orb]; rewrite IH; apply triple_eq;
         try lia; reflexivity |].
      cbn [orb].
      destruct (cls b =? 76); rewrite IH; cbn [orb]; apply triple_eq;
        try lia; reflexivity.
    + rewrite IH. apply triple_eq; try lia; reflexivity.
Qed.

Lemma count_boxes_documented (r : Results Image) :
  count_boxes r = (people_in r, cars_in r, weapon_in r).
Proof.
  unfold count_boxes, people_in, cars_in, weapon_in, boxes_of.
  destruct (boxes r) as [bs |]; [| reflexivity].
  now rewrite fold_count_box.
Qed.

Lemma absorb_documented (t : Tally Image) (r : Results Image) :
  absorb t r
    = mkTally (Z.max (max_people t) (people_in r))
              (Z.max (max_cars t) (cars_in r))
              (weapon_so_far t || weapon_in r)
              (frames_to_save t ++ [plot r]).
Proof.
  unfold absorb. rewrite count_boxes_documented.
  destruct (weapon_in r); [now rewrite orb_true_r | now rewrite orb_false_r].
Qed.

Lemma maximum_nonneg (l : list Z) : 0 <= maximum l.
Proof.
  induction l as [| x l IH]; [reflexivity |].
  change (maximum (x :: l)) with (Z.max x (maximum l)). lia.
Qed.

(** Folding the results of the sampled frames into the tally gives the
    maxima, the disjunction and the annotated frames in order. *)
Lemma fold_absorb (rs : list (Results Image)) (t : Tally Image) :
  0 <= max_people t ->
  0 <= max_cars t ->
  fold_left absorb rs t
    = mkTally (Z.max (max_people t) (maximum (map people_in rs)))
              (Z.max (max_cars t) (maximum (map cars_in rs)))
              (weapon_so_far t || existsb weapon_in rs)
              (frames_to_save t ++ map plot rs).
Proof.
  revert t. induction rs as [| r rs IH]; intros t Hp Hc.
  - destruct t as [p c w fs]. cbn in *.
    rewrite orb_false_r, app_nil_r. f_equal; lia.
  - cbn [fold_left]. rewrite IH; rewrite absorb_documented;
      cbn [max_people max_cars weapon_so_far frames_to_save]; try lia.
    cbn [map existsb maximum fold_right].
    fold (maximum (map people_in rs)). fold (maximum (map cars_in rs)).
    rewrite <- app_assoc, orb_assoc. cbn [app]. f_equal; lia.
Qed.

(** *** The effects of one run *)

Lemma detected_app (a b : list (event Frame)) :
  detected (a ++ b) = detected a ++ detected b.
Proof. unfold detected. apply flat_map_app. Qed.

Lemma detected_read (tr : list (event Frame)) (h : nat) :
  detected (tr ++ [Read h]) = detected tr.
Proof. rewrite detected_app. cbn. now rewrite app_nil_r. Qed.

Lemma detected_detect (tr : list (event Frame)) (f : Frame) :
  detected (tr ++ [Detect f]) = detected tr ++ [f].
Proof. rewrite detected_app. reflexivity. Qed.

Lemma process_ok (f : Frame) (r : Results Image) (t : Tally Image)
    (st : State Frame) :
  model env f = Some r ->
  process env f t st
    = (Return (absorb t r),
       mkState (trace st ++ [Detect f]) (created st) (held st)).
Proof.
  intros Hm. unfold process, detect, bind, log, ret, absorb. cbn.
  rewrite Hm. destruct (count_boxes r) as [[p c] w]. reflexivity.
Qed.

Lemma process_fail (f : Frame) (t : Tally Image) (st : State Frame) :
  model env f = None ->
  process env f t st
    = (Raise DetectorFailure,
       mkState (trace st ++ [Detect f]) (created st) (held st)).
Proof.
  intros Hm. unfold process, detect, bind, log, raise. cbn.
  now rewrite Hm.
Qed.

Ltac forall_events :=
  repeat (apply Forall_cons; [auto |]); auto using Forall_nil.

(** Whatever the detector does, the loop opens and releases nothing, and
    it can only end in the detector's exception. *)
Lemma sample_loop_effects (h : nat) (k : Z) (l : list Frame) :
  forall (i : Z) (t : Tally Image) (st : State Frame) o st',
    sample_loop env h k l i t st = (o, st') ->
    held st' = held st
    /\ created st' = created st
    /\ (exists evs, trace st' = trace st ++ evs /\ Forall (loop_event h) evs)
    /\ (forall e, o = Raise e -> e = DetectorFailure).
Proof.
  assert (Hread : loop_event h (@Read Frame h)) by now left.
  assert (Hdetect : forall f : Frame, loop_event h (Detect f))
    by (intros f; right; now exists f).
  induction l as [| f l IH]; intros i t st o st' Hrun.
  - cbn in Hrun. unfold bind, log, ret in Hrun. cbn in Hrun.
    injection Hrun as <- <-. cbn. repeat split; try discriminate.
    exists [Read h]. split; [reflexivity | forall_events].
  - cbn [sample_loop] in Hrun. unfold bind at 1 2 in Hrun.
    unfold log at 1 in Hrun. cbn [fst snd] in Hrun.
    destruct (i mod k =? 0).
    + destruct (model env f) as [r |] eqn:Hm.
      * rewrite (process_ok _ r) in Hrun by exact Hm.
        apply IH in Hrun as (Hh & Hc & (evs & Ht & Hl) & Hr).
        cbn in Hh, Hc, Ht.
        repeat split; try assumption.
        exists (Read h :: Detect f :: evs).
        split; [rewrite Ht, <- !app_assoc; reflexivity |].
        forall_events.
      * rewrite process_fail in Hrun by exact Hm.
        injection Hrun as <- <-. cbn. repeat split.
        -- exists [Read h; Detect f].
           split; [now rewrite <- app_assoc | forall_events].
        -- intros e He. now injection He as <-.
    + unfold ret at 1 in Hrun.
      apply IH in Hrun as (Hh & Hc & (evs & Ht & Hl) & Hr).
      cbn in Hh, Hc, Ht.
      repeat split; try assumption.
      exists (Read h :: evs).
      split; [rewrite Ht, <- app_assoc; reflexivity | forall_events].
Qed.

(** When the detector answers on every sampled frame, the loop returns the
    results of exactly those frames folded into the tally, and the detector
    was called on exactly those frames, in order. *)
Lemma sample_loop_ok (det : Frame -> Results Image) (h : nat) (k : Z)
    (l : list Frame) :
  forall (s : nat) (t : Tally Image) (st : State Frame),
    (forall f, In f (sampled_at k s l) -> model env f = Some (det f)) ->
    exists st',
      sample_loop env h k l (Z.of_nat s) t st
        = (Return (fold_left absorb (map det (sampled_at k s l)) t), st')
      /\ detected (trace st') = detected (trace st) ++ sampled_at k s l.
Proof.
  induction l as [| f l IH]; intros s t st Hdet.
  - exists (mkState (trace st ++ [Read h]) (created st) (held st)).
    split; [reflexivity |]. cbn [trace].
    now rewrite detected_read, sampled_at_nil, app_nil_r.
  - cbn [sample_loop]. unfold bind at 1 2. unfold log at 1. cbn [fst snd].
    rewrite sampled_at_cons in Hdet |- *.
    replace (Z.of_nat s + 1) with (Z.of_nat (S s)) by lia.
    destruct (Z.of_nat s mod k =? 0).
    + rewrite (process_ok _ (det f)) by (apply Hdet; now left).
      destruct (IH (S s) (absorb t (det f))
                  (mkState ((trace st ++ [Read h]) ++ [Detect f])
                     (created st) (held st)))
        as (st' & Hrun & Htr).
      { intros g Hg. apply Hdet. now right. }
      exists st'. split; [exact Hrun |].
      rewrite Htr. cbn [trace]. rewrite detected_detect, detected_read.
      now rewrite <- app_assoc.
    + unfold ret at 1.
      destruct (IH (S s) t
                  (mkState (trace st ++ [Read h]) (created st) (held st)))
        as (st' & Hrun & Htr); [exact Hdet |].
      exists st'. split; [exact Hrun |].
      rewrite Htr. cbn [trace]. now rewrite detected_read.
Qed.

(** When the detector raises on some sampled frame, so does the loop. *)
Lemma sample_loop_fail (h : nat) (k : Z) (l : list Frame) :
  forall (s : nat) (t : Tally Image) (st : State Frame),
    (exists f, In f (sampled_at k s l) /\ model env f = None) ->
    exists st', sample_loop env h k l (Z.of_nat s) t st
                = (Raise DetectorFailure, st').
Proof.
  induction l as [| f l IH]; intros s t st (g & Hg & Hm).
  - destruct Hg.
  - cbn [sample_loop]. unfold bind at 1 2. unfold log at 1. cbn [fst snd].
    rewrite sampled_at_cons in Hg.
    replace (Z.of_nat s + 1) with (Z.of_nat (S s)) by lia.
    destruct (Z.of_nat s mod k =? 0).
    + destruct (model env f) as [r |] eqn:Hf.
      * rewrite (process_ok _ r) by exact Hf.
        apply IH. exists g. split; [| exact Hm].
        destruct Hg as [-> | Hg]; [congruence | exact Hg].
      * rewrite process_fail by exact Hf. eexists. reflexivity.
    + unfold ret at 1. apply IH. now exists g.
Qed.

(** *** The run up to the sampling loop *)

Lemma fps_positive (q : Q) : (0 < q)%Q -> Qle_bool q 0 = false.
Proof.
  intros Hq. destruct (Qle_bool q 0) eqn:E; [| reflexivity].
  apply Qle_bool_iff in E. exfalso. apply (Qlt_not_le _ _ Hq E).
Qed.

(** The four ways through the checks of lines 30-49. *)
Lemma analyze_video_cases (frame_rate : Z) :
  analyze_video env frame_rate init
    = if negb (path_exists env)
      then (Raise FileNotFoundError, mkState [Exists] 0 [])
      else
        match capture env 0 with
        | None => (Raise ValueError, mkState [Exists; Open 0%nat] 1 [])
        | Some v =>
            if Qle_bool (fps v) 0 then (Raise ValueError, started)
            else if frame_rate =? 0 then (Raise ZeroDivisionError, started)
            else after_checks env v frame_rate started
        end.
Proof.
  unfold analyze_video, exists_, VideoCapture.
  unfold bind at 1 2 3. unfold log, ret at 1. cbn [init trace created held].
  destruct (path_exists env); cbn [negb created trace held app];
    [| reflexivity].
  destruct (capture env 0) as [v |]; [| reflexivity].
  destruct (Qle_bool (fps v) 0); [reflexivity |].
  destruct (frame_rate =? 0); reflexivity.
Qed.

Lemma analyze_video_checked (v : Video Frame) (frame_rate : Z) :
  path_exists env = true ->
  capture env 0 = Some v ->
  (0 < fps v)%Q ->
  frame_rate <> 0 ->
  analyze_video env frame_rate init = after_checks env v frame_rate started.
Proof.
  intros He Hc Hf Hr. apply fps_positive in Hf. apply Z.eqb_neq in Hr.
  rewrite analyze_video_cases, He, Hc, Hf, Hr. reflexivity.
Qed.

(** *** Choosing the frames to return *)

Lemma select_frames_few (saved : list Image) (st : State Frame) :
  (1 <= List.length saved <= 3)%nat ->
  select_frames env saved st = (Return saved, st).
Proof.
  intros [Hlo Hhi]. unfold select_frames.
  replace (0 <? List.length saved)%nat with true
    by (symmetry; apply Nat.ltb_lt; lia).
  replace (List.length saved <=? 3)%nat with true
    by (symmetry; apply Nat.leb_le; lia).
  reflexivity.
Qed.

Lemma select_frames_many (saved : list Image) (st : State Frame) :
  (3 < List.length saved)%nat ->
  exists first middle last,
    nth_error saved 0 = Some first
    /\ nth_error saved (List.length saved / 2) = Some middle
    /\ nth_error saved (List.length saved - 1) = Some last
    /\ select_frames env saved st = (Return [first; middle; last], st).
Proof.
  intros Hn.
  assert (Hmid : (List.length saved / 2 < List.length saved)%nat)
    by (apply Nat.div_lt; lia).
  destruct (nth_error_in_range saved 0) as [a Ha]; [lia |].
  destruct (nth_error_in_range saved (List.length saved / 2)) as [b Hb];
    [exact Hmid |].
  destruct (nth_error_in_range saved (List.length saved - 1)) as [c Hc];
    [lia |].
  exists a, b, c. repeat split; try assumption.
  unfold select_frames.
  replace (0 <? List.length saved)%nat with true
    by (symmetry; apply Nat.ltb_lt; lia).
  replace (List.length saved <=? 3)%nat with false
    by (symmetry; apply Nat.leb_gt; lia).
  unfold bind, index.
  change 0 with (Z.of_nat 0) at 1.
  rewrite !getitem_nat by (try exact Hmid; lia).
  rewrite getitem_last by lia.
  rewrite Ha, Hb, Hc. reflexivity.
Qed.

Lemma filter_released (h : nat) (l : list nat) :
  filter (fun h' => negb (Nat.eqb h' h)) (h :: l)
    = filter (fun h' => negb (Nat.eqb h' h)) l.
Proof. cbn [filter]. now rewrite Nat.eqb_refl. Qed.

(** The fallback when a frame can be read from the capture it opens: one
    detector call, on that frame. *)
Lemma select_frames_fallback (f : Frame) (st : State Frame) :
  fallback_frame env (created st) = Some f ->
  let h := created st in
  select_frames env [] st
    = (match model env f with
       | Some r => Return [plot r]
       | None => Raise DetectorFailure
       end,
       mkState
         (trace st ++ [Open h; Read h; Detect f]
            ++ match model env f with
               | Some _ => [Release h]
               | None => []
               end)
         (S h)
         (match model env f with
          | Some _ => filter (fun h' => negb (Nat.eqb h' h)) (held st)
          | None => h :: held st
          end)).
Proof.
  intros Hf h. unfold fallback_frame in Hf. fold h in Hf.
  unfold select_frames. cbn [List.length Nat.ltb Nat.leb].
  unfold bind at 1. unfold VideoCapture. fold h.
  destruct (capture env h) as [[q [| g gs]] |]; try discriminate.
  injection Hf as ->.
  unfold bind at 1 2. unfold log at 1. cbn [fst snd trace created held].
  unfold detect, bind at 2, log. cbn [fst snd trace created held].
  destruct (model env f) as [r |].
  - unfold bind, ret, release. cbn [fst snd trace created held].
    rewrite filter_released, <- !app_assoc. reflexivity.
  - unfold bind, raise. cbn [fst snd trace created held].
    rewrite <- !app_assoc, app_nil_r. reflexivity.
Qed.

(** The fallback when nothing can be read: no detector call, no frame. *)
Lemma select_frames_nothing (st : State Frame) :
  fallback_frame env (created st) = None ->
  let h := created st in
  select_frames env [] st
    = (Return [],
       mkState (trace st ++ [Open h; Read h; Release h]) (S h)
         (filter (fun h' => negb (Nat.eqb h' h)) (held st))).
Proof.
  intros Hf h. unfold fallback_frame in Hf. fold h in Hf.
  unfold select_frames. cbn [List.length Nat.ltb Nat.leb].
  unfold bind at 1. unfold VideoCapture. fold h.
  destruct (capture env h) as [[q [| g gs]] |]; try discriminate;
    unfold bind, log, ret, release; cbn [fst snd trace created held];
    rewrite ?filter_released, <- !app_assoc; reflexivity.
Qed.

(** Selection leaves nothing open when it returns. *)
Lemma select_frames_held (saved : list Image) (st : State Frame)
    (fs : list Image) (st' : State Frame) :
  select_frames env saved st = (Return fs, st') ->
  held st = [] ->
  held st' = [].
Proof.
  intros Hrun Hh. destruct saved as [| x saved].
  - destruct (fallback_frame env (created st)) as [f |] eqn:Hf.
    + rewrite (select_frames_fallback f) in Hrun by exact Hf.
      destruct (model env f); [| discriminate].
      injection Hrun as _ <-. cbn [held]. now rewrite Hh.
    + rewrite select_frames_nothing in Hrun by exact Hf.
      injection Hrun as _ <-. cbn [held]. now rewrite Hh.
  - destruct (Nat.le_gt_cases (List.length (x :: saved)) 3) as [Hle | Hgt].
    + rewrite select_frames_few in Hrun by (cbn [List.length] in *; lia).
      injection Hrun as _ <-. exact Hh.
    + destruct (select_frames_many (x :: saved) st Hgt)
        as (a & b & c & _ & _ & _ & E).
      rewrite E in Hrun. injection Hrun as _ <-. exact Hh.
Qed.

(** *** The whole run when the detector answers *)

Lemma existsb_map {A B : Type} (g : A -> B) (p : B -> bool) (l : list A) :
  existsb p (map g l) = existsb (fun x => p (g x)) l.
Proof. induction l as [| x l IH]; cbn; [reflexivity | now rewrite IH]. Qed.

(** The sampling loop of a run whose checks have passed. *)
Lemma sample_phase (det : Frame -> Results Image) (v : Video Frame) (k : Z) :
  let processed := sampled k (frames_of v) in
  (forall f, In f processed -> model env f = Some (det f)) ->
  exists st1,
    sample_loop env 0 k (frames_of v) 0 (mkTally 0 0 false []) started
      = (Return
           (mkTally (maximum (map (fun f => people_in (det f)) processed))
                    (maximum (map (fun f => cars_in (det f)) processed))
                    (existsb (fun f => weapon_in (det f)) processed)
                    (map (fun f => plot (det f)) processed)),
         st1)
    /\ detected (trace st1) = processed
    /\ held st1 = [0%nat]
    /\ created st1 = 1%nat
    /\ exists evs,
         trace st1 = [Exists; Open 0%nat] ++ evs
         /\ Forall (loop_event 0) evs.
Proof.
  intros processed Hdet.
  destruct (sample_loop_ok det 0 k (frames_of v) 0 (mkTally 0 0 false [])
              started Hdet) as (st1 & Hrun & Htr).
  cbn [Z.of_nat] in Hrun.
  destruct (sample_loop_effects _ _ _ _ _ _ _ _ Hrun)
    as (Hh & Hc & Hev & _).
  exists st1. repeat split; try assumption.
  rewrite Hrun. f_equal. rewrite fold_absorb by (cbn; lia).
  cbn [max_people max_cars weapon_so_far frames_to_save orb app].
  fold (sampled k (frames_of v)). fold processed.
  rewrite !map_map, existsb_map.
  rewrite !Z.max_r by apply maximum_nonneg. reflexivity.
Qed.

Lemma detected_release (tr : list (event Frame)) (h : nat) :
  detected (tr ++ [Release h]) = detected tr.
Proof. rewrite detected_app. cbn. now rewrite app_nil_r. Qed.

(** A run whose checks have passed and whose detector answers: the result,
    the frames it returns and the detector calls it made. *)
Lemma after_checks_ok (det : Frame -> Results Image) (v : Video Frame)
    (frame_rate : Z) :
  (forall f, model env f = Some (det f)) ->
  let processed := sampled (frame_interval_of (fps v) frame_rate) (frames_of v) in
  let saved := map (fun f => plot (det f)) processed in
  exists fs st',
    after_checks env v frame_rate started
      = (Return
           (mkVideoResult
              (maximum (map (fun f => people_in (det f)) processed))
              (maximum (map (fun f => cars_in (det f)) processed))
              (existsb (fun f => weapon_in (det f)) processed)
              fs),
         st')
    /\ held st' = []
    /\ ((1 <= List.length saved <= 3)%nat ->
        fs = saved /\ detected (trace st') = processed)
    /\ ((3 < List.length saved)%nat ->
        (exists first middle last,
           nth_error saved 0 = Some first
           /\ nth_error saved (List.length saved / 2) = Some middle
           /\ nth_error saved (List.length saved - 1) = Some last
           /\ fs = [first; middle; last])
        /\ detected (trace st') = processed)
    /\ (List.length saved = 0%nat ->
        In (Open 1) (trace st')
        /\ match fallback_frame env 1 with
           | Some f => fs = [plot (det f)] /\ detected (trace st') = [f]
           | None => fs = [] /\ detected (trace st') = []
           end).
Proof.
  intros Hdet processed saved.
  destruct (sample_phase det v (frame_interval_of (fps v) frame_rate))
    as (st1 & Hrun & Htr & Hh & Hc & _); [intros f _; apply Hdet |].
  fold processed in Hrun, Htr. fold saved in Hrun.
  unfold after_checks. cbv zeta. unfold bind at 1. rewrite Hrun.
  cbn [max_people max_cars weapon_so_far frames_to_save].
  unfold bind at 1. unfold release at 1. rewrite Hh, Hc.
  cbn [filter Nat.eqb negb].
  set (st2 := mkState (trace st1 ++ [Release 0%nat]) 1 []).
  assert (Htr2 : detected (trace st2) = processed)
    by (unfold st2; cbn [trace]; now rewrite detected_release).
  destruct (Nat.eq_dec (List.length saved) 0) as [Hz | Hnz].
  - apply length_zero_iff_nil in Hz.
    assert (Hp : processed = []) by (now apply map_eq_nil in Hz).
    rewrite Hz. unfold bind at 1.
    destruct (fallback_frame env 1) as [f |] eqn:Hf.
    + rewrite (select_frames_fallback f) by exact Hf. rewrite Hdet.
      unfold ret. do 2 eexists. split; [reflexivity |].
      cbn [held trace created filter].
      split; [reflexivity |]. split; [cbn; lia |]. split; [cbn; lia |].
      intros _. split.
      * apply in_or_app. right. now left.
      * split; [reflexivity |].
        rewrite detected_app, Htr2, Hp. reflexivity.
    + rewrite select_frames_nothing by exact Hf.
      unfold ret. do 2 eexists. split; [reflexivity |].
      cbn [held trace created filter].
      split; [reflexivity |]. split; [cbn; lia |]. split; [cbn; lia |].
      intros _. split.
      * apply in_or_app. right. now left.
      * split; [reflexivity |].
        rewrite detected_app, Htr2, Hp. reflexivity.
  - destruct (Nat.le_gt_cases (List.length saved) 3) as [Hle | Hgt].
    + unfold bind at 1. rewrite select_frames_few by lia.
      unfold ret. do 2 eexists. split; [reflexivity |].
      split; [reflexivity |]. split; [intros _; now split |].
      split; intros; lia.
    + destruct (select_frames_many saved st2 Hgt)
        as (a & b & c & Ha & Hb & Hcc & E).
      unfold bind at 1. rewrite E.
      unfold ret. do 2 eexists. split; [reflexivity |].
      split; [reflexivity |]. split; [intros; lia |].
      split; [| intros; lia].
      intros _. split; [| exact Htr2]. now exists a, b, c.
Qed.

(** *** Every run *)

Lemma select_frames_effects (saved : list Image) (st : State Frame) o st' :
  select_frames env saved st = (o, st') ->
  (exists evs, trace st' = trace st ++ evs)
  /\ (forall e, o = Raise e -> e = DetectorFailure)
  /\ (forall fs, o = Return fs -> held st = [] -> held st' = []).
Proof.
  intros Hrun. split; [| split].
  - destruct saved as [| x saved].
    + destruct (fallback_frame env (created st)) as [f |] eqn:Hf.
      * rewrite (select_frames_fallback f) in Hrun by exact Hf.
        injection Hrun as _ <-. cbn [trace]. eexists. reflexivity.
      * rewrite select_frames_nothing in Hrun by exact Hf.
        injection Hrun as _ <-. cbn [trace]. eexists. reflexivity.
    + exists []. rewrite app_nil_r.
      destruct (Nat.le_gt_cases (List.length (x :: saved)) 3) as [Hle | Hgt].
      * rewrite select_frames_few in Hrun by (cbn [List.length] in *; lia).
        now injection Hrun as _ <-.
      * destruct (select_frames_many (x :: saved) st Hgt)
          as (a & b & c & _ & _ & _ & E).
        rewrite E in Hrun. now injection Hrun as _ <-.
  - intros e ->. destruct saved as [| x saved].
    + destruct (fallback_frame env (created st)) as [f |] eqn:Hf.
      * rewrite (select_frames_fallback f) in Hrun by exact Hf.
        destruct (model env f); [discriminate |]. now injection Hrun as <- _.
      * rewrite select_frames_nothing in Hrun by exact Hf. discriminate.
    + destruct (Nat.le_gt_cases (List.length (x :: saved)) 3) as [Hle | Hgt].
      * rewrite select_frames_few in Hrun by (cbn [List.length] in *; lia).
        discriminate.
      * destruct (select_frames_many (x :: saved) st Hgt)
          as (a & b & c & _ & _ & _ & E).
        rewrite E in Hrun. discriminate.
  - intros fs ->. now apply (select_frames_held saved st fs st').
Qed.

(** A run whose checks have passed, whatever the detector does: it starts
    from the check and the first opening, can only end in the detector's
    exception, and holds no capture when it returns. *)
Lemma after_checks_outcome (v : Video Frame) (frame_rate : Z) o st' :
  after_checks env v frame_rate started = (o, st') ->
  (exists evs, trace st' = [Exists; Open 0%nat] ++ evs)
  /\ (forall e, o = Raise e -> e = DetectorFailure)
  /\ (forall r, o = Return r -> held st' = []).
Proof.
  unfold after_checks. cbv zeta. unfold bind at 1.
  destruct (sample_loop env 0 _ (frames_of v) 0 _ started)
    as [[t | e] st1] eqn:Hloop;
    destruct (sample_loop_effects _ _ _ _ _ _ _ _ Hloop)
      as (Hh & Hc & (evs & Ht & _) & Hr).
  - unfold bind at 1. unfold release at 1. rewrite Hh.
    cbn [started held filter Nat.eqb negb].
    unfold bind at 1.
    destruct (select_frames env (frames_to_save t) _)
      as [[fs | e] st2] eqn:Hsel;
      destruct (select_frames_effects _ _ _ _ Hsel)
        as ((evs2 & Ht2) & Hr2 & Hh2);
      cbn [trace] in Ht2; unfold ret; intros Hrun;
      injection Hrun as <- <-.
    + split; [| split].
      * rewrite Ht2, Ht. cbn [started trace]. rewrite <- !app_assoc.
        eexists. reflexivity.
      * discriminate.
      * intros r _. now apply (Hh2 fs).
    + split; [| split].
      * rewrite Ht2, Ht. cbn [started trace]. rewrite <- !app_assoc.
        eexists. reflexivity.
      * intros e' He'. injection He' as <-. now apply Hr2.
      * discriminate.
  - intros Hrun. injection Hrun as <- <-. split; [| split].
    + rewrite Ht. now exists evs.
    + intros e' He'. injection He' as <-. now apply Hr.
    + discriminate.
Qed.

(** *** The claims on [analyze_video] *)

(** C8. [analyze_video] fails with NotFound ([FileNotFoundError]) exactly
    when the path does not exist, and with InvalidVideo ([ValueError])
    exactly when the path exists and the source cannot be opened or its
    frame rate is not positive.  The existence check comes first: every
    run starts with it, and when it fails nothing else happens, so the
    source is never opened. *)
Theorem analyze_video_errors (frame_rate : Z) :
  (fst (analyze_video env frame_rate init) = Raise FileNotFoundError
   <-> path_exists env = false)
  /\ (fst (analyze_video env frame_rate init) = Raise ValueError
      <-> path_exists env = true
          /\ (capture env 0 = None
              \/ exists v, capture env 0 = Some v /\ (fps v <= 0)%Q))
  /\ (exists evs,
        trace (snd (analyze_video env frame_rate init)) = Exists :: evs
        /\ (path_exists env = false -> evs = [])).
Proof.
  rewrite analyze_video_cases.
  destruct (path_exists env); cbn [negb].
  2: { repeat split; try discriminate; try reflexivity.
       - intros [H _]. discriminate.
       - exists []. now split. }
  destruct (capture env 0) as [v |].
  2: { repeat split; try discriminate; try (now left).
       exists [Open 0%nat]. split; [reflexivity | discriminate]. }
  destruct (Qle_bool (fps v) 0) eqn:Hq.
  { repeat split; try discriminate.
    - right. exists v. split; [reflexivity | now apply Qle_bool_iff].
    - exists [Open 0%nat]. split; [reflexivity | discriminate]. }
  assert (Hpos : forall v', Some v = Some v' -> ~ (fps v' <= 0)%Q).
  { intros v' E Hle. injection E as <-. apply Qle_bool_iff in Hle.
    congruence. }
  destruct (frame_rate =? 0).
  { repeat split; try discriminate.
    - intros [_ [H | (v' & E & Hle)]]; [discriminate |].
      now destruct (Hpos v' E).
    - exists [Open 0%nat]. split; [reflexivity | discriminate]. }
  destruct (after_checks env v frame_rate started) as [o st'] eqn:Hrun.
  destruct (after_checks_outcome _ _ _ _ Hrun) as ((evs & Ht) & Hr & _).
  cbn [fst snd].
  split; [split; [intros E; apply Hr in E |]; discriminate |].
  split; [split |].
  - intros E. apply Hr in E. discriminate.
  - intros [_ [H | (v' & E & Hle)]]; [discriminate |].
    now destruct (Hpos v' E).
  - rewrite Ht. eexists. split; [reflexivity | discriminate].
Qed.

(** C4, as the code has it.  Whenever [analyze_video] returns, every
    capture it opened has been released.  There is no clean-up on the
    way of an exception: when the detector raises on a sampled frame, the
    exception leaves [analyze_video] with the capture still open and never
    released. *)
Theorem analyze_video_release (frame_rate : Z) :
  (forall r st',
     analyze_video env frame_rate init = (Return r, st') -> held st' = [])
  /\ (forall v,
        path_exists env = true ->
        capture env 0 = Some v ->
        (0 < fps v)%Q ->
        frame_rate <> 0 ->
        (exists f,
           In f (sampled (frame_interval_of (fps v) frame_rate) (frames_of v))
           /\ model env f = None) ->
        exists st',
          analyze_video env frame_rate init = (Raise DetectorFailure, st')
          /\ held st' = [0%nat]
          /\ ~ In (Release 0) (trace st')).
Proof.
  split.
  - intros r st'. rewrite analyze_video_cases.
    destruct (path_exists env); cbn [negb]; [| discriminate].
    destruct (capture env 0) as [v |]; [| discriminate].
    destruct (Qle_bool (fps v) 0); [discriminate |].
    destruct (frame_rate =? 0); [discriminate |].
    intros Hrun.
    destruct (after_checks_outcome _ _ _ _ Hrun) as (_ & _ & Hh).
    now apply (Hh r).
  - intros v He Hc Hf Hr Hfail.
    rewrite (analyze_video_checked v) by assumption.
    destruct (sample_loop_fail 0 _ (frames_of v) 0 (mkTally 0 0 false [])
                started Hfail) as (st1 & Hloop).
    cbn [Z.of_nat] in Hloop.
    destruct (sample_loop_effects _ _ _ _ _ _ _ _ Hloop)
      as (Hh & _ & (evs & Ht & Hev) & _).
    exists st1. unfold after_checks. cbv zeta. unfold bind at 1.
    rewrite Hloop. split; [reflexivity |]. split; [exact Hh |].
    rewrite Ht. intros Hin.
    apply in_app_or in Hin as [Hin | Hin].
    + cbn in Hin. destruct Hin as [H | [H | []]]; discriminate.
    + rewrite Forall_forall in Hev. apply Hev in Hin.
      destruct Hin as [H | (f & H)]; discriminate.
Qed.


(** C6, with the guard on the fallback read.  With at most 3 processed
    frames all of them are returned, in order; with more than 3, exactly
    the first, the one at index n // 2 and the last.  With no processed
    frame the source is opened again and one frame is read: when that read
    gives a frame, the detector runs once, on it, and its annotated frame
    is the only one returned; when it gives none, the detector does not
    run and no frame is returned.  Either way people, cars and
    weapon_present stay at 0, 0 and false. *)
Theorem analyze_video_frames (det : Frame -> Results Image)
    (v : Video Frame) (frame_rate : Z) :
  path_exists env = true ->
  capture env 0 = Some v ->
  (0 < fps v)%Q ->
  frame_rate <> 0 ->
  (forall f, model env f = Some (det f)) ->
  let saved :=
    map (fun f => plot (det f))
      (sampled (frame_interval_of (fps v) frame_rate) (frames_of v)) in
  exists r st',
    analyze_video env frame_rate init = (Return r, st')
    /\ ((1 <= List.length saved <= 3)%nat -> frames r = saved)
    /\ ((3 < List.length saved)%nat ->
        exists first middle last,
          nth_error saved 0 = Some first
          /\ nth_error saved (List.length saved / 2) = Some middle
          /\ nth_error saved (List.length saved - 1) = Some last
          /\ frames r = [first; middle; last])
    /\ (List.length saved = 0%nat ->
        In (Open 1) (trace st')
        /\ people r = 0 /\ cars r = 0 /\ weapon_present r = false
        /\ match fallback_frame env 1 with
           | Some f => frames r = [plot (det f)] /\ detected (trace st') = [f]
           | None => frames r = [] /\ detected (trace st') = []
           end).
Proof.
  intros He Hc Hf Hr Hdet saved.
  rewrite (analyze_video_checked v) by assumption.
  destruct (after_checks_ok det v frame_rate Hdet)
    as (fs & st' & Hrun & _ & Hfew & Hmany & Hnone).
  cbv zeta in Hfew, Hmany, Hnone. fold saved in Hfew, Hmany, Hnone.
  do 2 eexists. split; [exact Hrun |]. cbn [people cars weapon_present frames].
  split; [intros H; now apply Hfew |].
  split; [intros H; now apply Hmany |].
  intros Hz. destruct (Hnone Hz) as (Hopen & Hfb).
  split; [exact Hopen |].
  unfold saved in Hz. rewrite length_map in Hz.
  apply length_zero_iff_nil in Hz. rewrite Hz.
  repeat split; exact Hfb || (destruct (fallback_frame env 1); exact Hfb).
Qed.

(** *** Further properties of [analyze_video] *)

Lemma reads_app (h : nat) (a b : list (event Frame)) :
  reads h (a ++ b) = (reads h a + reads h b)%nat.
Proof. unfold reads. now rewrite filter_app, length_app. Qed.

(** A loop that returns has read every frame, and once more to find the
    end; its maxima do not go below where they started. *)
Lemma sample_loop_return (h : nat) (k : Z) (l : list Frame) :
  forall (i : Z) (t t' : Tally Image) (st st' : State Frame),
    sample_loop env h k l i t st = (Return t', st') ->
    reads h (trace st') = (reads h (trace st) + S (List.length l))%nat
    /\ max_people t <= max_people t'
    /\ max_cars t <= max_cars t'.
Proof.
  assert (Hread : forall tr : list (event Frame),
             reads h (tr ++ [Read h]) = S (reads h tr)).
  { intros tr. rewrite reads_app. unfold reads at 2.
    cbn [filter]. rewrite Nat.eqb_refl. cbn [List.length]. lia. }
  induction l as [| f l IH]; intros i t t' st st' Hrun.
  - cbn in Hrun. unfold bind, log, ret in Hrun. cbn in Hrun.
    injection Hrun as <- <-. cbn [trace List.length].
    rewrite Hread. repeat split; lia.
  - cbn [sample_loop] in Hrun. unfold bind at 1 2 in Hrun.
    unfold log at 1 in Hrun. cbn [fst snd] in Hrun.
    destruct (i mod k =? 0).
    + destruct (model env f) as [r |] eqn:Hm.
      * rewrite (process_ok _ r) in Hrun by exact Hm.
        apply IH in Hrun as (Hr & Hp & Hc). cbn [trace] in Hr.
        rewrite absorb_documented in Hp, Hc.
        cbn [max_people max_cars] in Hp, Hc.
        rewrite Hr, reads_app, Hread. unfold reads at 2.
        cbn [filter List.length]. repeat split; lia.
      * rewrite process_fail in Hrun by exact Hm. discriminate.
    + unfold ret at 1 in Hrun.
      apply IH in Hrun as (Hr & Hp & Hc). cbn [trace] in Hr.
      rewrite Hr, Hread. cbn [List.length]. repeat split; lia.
Qed.

(** What selection does to a trace and to the frames, whatever the
    detector does: at most three frames come back, the capture of the loop
    is not read again, and an exception leaves the fallback capture open. *)
Lemma select_frames_shape (saved : list Image) (st : State Frame) o st' :
  select_frames env saved st = (o, st') ->
  (forall fs, o = Return fs -> (List.length fs <= 3)%nat)
  /\ (forall h, h <> created st -> reads h (trace st') = reads h (trace st))
  /\ (forall e, o = Raise e -> held st' <> []).
Proof.
  intros Hrun.
  assert (Hother : forall h h', h <> h' -> Nat.eqb h' h = false)
    by (intros h h' Hne; apply Nat.eqb_neq; congruence).
  destruct saved as [| x saved].
  - destruct (fallback_frame env (created st)) as [f |] eqn:Hf.
    + rewrite (select_frames_fallback f) in Hrun by exact Hf.
      injection Hrun as <- <-. cbn [trace held].
      split; [| split].
      * intros fs H. destruct (model env f); [| discriminate].
        injection H as <-. cbn. lia.
      * intros h Hne. rewrite reads_app. unfold reads at 2.
        cbn [filter app]. rewrite (Hother _ _ Hne).
        destruct (model env f); cbn [filter app List.length]; lia.
      * intros e H. destruct (model env f); discriminate.
    + rewrite select_frames_nothing in Hrun by exact Hf.
      injection Hrun as <- <-. cbn [trace].
      split; [| split]; try discriminate.
      * intros fs H. injection H as <-. cbn. lia.
      * intros h Hne. rewrite reads_app. unfold reads at 2.
        cbn [filter]. rewrite (Hother _ _ Hne). cbn [List.length]. lia.
  - destruct (Nat.le_gt_cases (List.length (x :: saved)) 3) as [Hle | Hgt].
    + rewrite select_frames_few in Hrun by (cbn [List.length] in *; lia).
      injection Hrun as <- <-.
      split; [| split]; try discriminate; [| reflexivity].
      intros fs H. now injection H as <-.
    + destruct (select_frames_many (x :: saved) st Hgt)
        as (a & b & c & _ & _ & _ & E).
      rewrite E in Hrun. injection Hrun as <- <-.
      split; [| split]; try discriminate; [| reflexivity].
      intros fs H. injection H as <-. cbn. lia.
Qed.

(** The same for a whole run whose checks have passed. *)
Lemma after_checks_shape (v : Video Frame) (frame_rate : Z) o st' :
  after_checks env v frame_rate started = (o, st') ->
  (forall r, o = Return r ->
     0 <= people r /\ 0 <= cars r
     /\ (List.length (frames r) <= 3)%nat
     /\ reads 0 (trace st') = S (List.length (frames_of v)))
  /\ (forall e, o = Raise e -> held st' <> []).
Proof.
  unfold after_checks. cbv zeta. unfold bind at 1.
  destruct (sample_loop env 0 _ (frames_of v) 0 _ started)
    as [[t | e] st1] eqn:Hloop;
    destruct (sample_loop_effects _ _ _ _ _ _ _ _ Hloop)
      as (Hh & Hc & _ & _).
  - apply sample_loop_return in Hloop as (Hreads & Hp & Hcars).
    cbn [max_people max_cars started trace] in Hreads, Hp, Hcars.
    unfold bind at 1. unfold release at 1. rewrite Hh, Hc.
    cbn [started held created filter Nat.eqb negb].
    unfold bind at 1.
    destruct (select_frames env (frames_to_save t) _)
      as [[fs | e] st2] eqn:Hsel;
      destruct (select_frames_shape _ _ _ _ Hsel) as (Hlen & Hsame & Hleak);
      cbn [created trace] in Hsame; unfold ret; intros Hrun;
      injection Hrun as <- <-.
    + split; [| discriminate]. intros r H. injection H as <-.
      cbn [people cars frames].
      repeat split; try lia; [now apply Hlen |].
      rewrite (Hsame 0%nat) by discriminate.
      rewrite reads_app, Hreads. cbn. lia.
    + split; [discriminate |]. intros e' H. now apply (Hleak e).
  - intros Hrun. injection Hrun as <- <-.
    split; [discriminate |]. intros e' _. rewrite Hh. discriminate.
Qed.

(** A run that returns gives at most three frames, and counts that are not
    negative. *)
Theorem analyze_video_result_shape (frame_rate : Z) r st' :
  analyze_video env frame_rate init = (Return r, st') ->
  0 <= people r /\ 0 <= cars r /\ (List.length (frames r) <= 3)%nat.
Proof.
  rewrite analyze_video_cases.
  destruct (path_exists env); cbn [negb]; [| discriminate].
  destruct (capture env 0) as [v |]; [| discriminate].
  destruct (Qle_bool (fps v) 0); [discriminate |].
  destruct (frame_rate =? 0); [discriminate |].
  intros Hrun. destruct (after_checks_shape _ _ _ _ Hrun) as [Hret _].
  destruct (Hret r eq_refl) as (Hp & Hc & Hl & _). now repeat split.
Qed.

(** Every frame of the video is read, whatever the sampling: a run that
    returns has read its first capture once per frame and once more to
    find the end. *)
Theorem analyze_video_reads_all (frame_rate : Z) (v : Video Frame) r st' :
  capture env 0 = Some v ->
  analyze_video env frame_rate init = (Return r, st') ->
  reads 0 (trace st') = S (List.length (frames_of v)).
Proof.
  intros Hc. rewrite analyze_video_cases, Hc.
  destruct (path_exists env); cbn [negb]; [| discriminate].
  destruct (Qle_bool (fps v) 0); [discriminate |].
  destruct (frame_rate =? 0); [discriminate |].
  intros Hrun. destruct (after_checks_shape _ _ _ _ Hrun) as [Hret _].
  now destruct (Hret r eq_refl) as (_ & _ & _ & Hr).
Qed.

(** Once the source has been opened, [analyze_video] leaves no capture
    open exactly when it returns: every exception after that point (the
    frame rate, the division, the detector in the loop or in the fallback)
    leaves a capture unreleased. *)
Theorem analyze_video_released_iff_returned (frame_rate : Z)
    (v : Video Frame) o st' :
  path_exists env = true ->
  capture env 0 = Some v ->
  analyze_video env frame_rate init = (o, st') ->
  (held st' = [] <-> exists r, o = Return r).
Proof.
  intros He Hc. rewrite analyze_video_cases, He, Hc. cbn [negb].
  assert (Hstarted : forall e : exn,
            (held (@started Frame) = [] <-> exists r : VideoResult Image,
                                              Raise e = Return r)).
  { intros e. split; [discriminate | intros (r & H); discriminate]. }
  destruct (Qle_bool (fps v) 0).
  { intros H. injection H as <- <-. apply Hstarted. }
  destruct (frame_rate =? 0).
  { intros H. injection H as <- <-. apply Hstarted. }
  intros Hrun.
  destruct (after_checks_outcome _ _ _ _ Hrun) as (_ & _ & Hret).
  destruct (after_checks_shape _ _ _ _ Hrun) as (_ & Hraise).
  destruct o as [r | e].
  - split; [now exists r | intros _; now apply (Hret r)].
  - split; [intros H; now destruct (Hraise e eq_refl)
           | intros (r & H); discriminate].
Qed.

(** *** How many frames are processed *)








(** *** When the fallback runs *)

(** A loop that returns has saved a frame for every frame it sampled: none
    on an empty capture, at least one when it starts on a sampled index. *)
Lemma sample_loop_saves (h : nat) (k : Z) (l : list Frame) :
  forall (i : Z) (t t' : Tally Image) (st st' : State Frame),
    sample_loop env h k l i t st = (Return t', st') ->
    (List.length (frames_to_save t) <= List.length (frames_to_save t'))%nat
    /\ (l = [] -> t' = t)
    /\ (l <> [] -> i mod k = 0 ->
        (List.length (frames_to_save t) < List.length (frames_to_save t'))%nat).
Proof.
  induction l as [| f l IH]; intros i t t' st st' Hrun.
  - cbn in Hrun. unfold bind, log, ret in Hrun. cbn in Hrun.
    injection Hrun as <- _. repeat split; [lia | congruence].
  - cbn [sample_loop] in Hrun. unfold bind at 1 2 in Hrun.
    unfold log at 1 in Hrun. cbn [fst snd] in Hrun.
    destruct (Z.eqb_spec (i mod k) 0) as [E | E].
    + destruct (model env f) as [r |] eqn:Hm.
      * rewrite (process_ok _ r) in Hrun by exact Hm.
        apply IH in Hrun as (Hle & _ & _).
        rewrite absorb_documented in Hle. cbn [frames_to_save] in Hle.
        rewrite length_app in Hle. cbn [List.length] in Hle.
        repeat split; [lia | discriminate | intros; lia].
      * rewrite process_fail in Hrun by exact Hm. discriminate.
    + unfold ret at 1 in Hrun. apply IH in Hrun as (Hle & _ & _).
      repeat split; [exact Hle | discriminate | intros; contradiction].
Qed.

(** The source is opened a second time exactly when it delivered no frame
    at all: the first frame of a video is always sampled, so a video that
    has one never reaches the fallback. *)
Theorem analyze_video_fallback_iff_empty (frame_rate : Z) (v : Video Frame)
    (r : VideoResult Image) (st' : State Frame) :
  capture env 0 = Some v ->
  analyze_video env frame_rate init = (Return r, st') ->
  (In (Open 1) (trace st') <-> frames_of v = []).
Proof.
  intros Hc. rewrite analyze_video_cases, Hc.
  destruct (path_exists env); cbn [negb]; [| discriminate].
  destruct (Qle_bool (fps v) 0); [discriminate |].
  destruct (frame_rate =? 0); [discriminate |].
  unfold after_checks. cbv zeta. unfold bind at 1.
  destruct (sample_loop env 0 _ (frames_of v) 0 _ started)
    as [[t | e] st1] eqn:Hloop; [| discriminate].
  destruct (sample_loop_effects _ _ _ _ _ _ _ _ Hloop)
    as (Hh & Hcr & (evs & Ht & Hev) & _).
  destruct (sample_loop_saves _ _ _ _ _ _ _ _ Hloop) as (_ & Hnil & Hcons).
  unfold bind at 1. unfold release at 1. rewrite Hh, Hcr, Ht.
  cbn [started held created trace filter Nat.eqb negb].
  assert (Hloop_events : ~ In (Open 1) (([Exists; Open 0%nat] ++ evs)
                                       ++ [@Release Frame 0])).
  { intros Hin. apply in_app_or in Hin as [Hin | [H | []]];
      [| discriminate].
    apply in_app_or in Hin as [[H | [H | []]] | Hin]; try discriminate.
    rewrite Forall_forall in Hev. apply Hev in Hin.
    destruct Hin as [H | (f & H)]; discriminate. }
  unfold bind at 1.
  destruct (frames_of v) as [| x l] eqn:Hv.
  - rewrite (Hnil eq_refl). cbn [frames_to_save].
    destruct (fallback_frame env 1) as [f |] eqn:Hf.
    + rewrite (select_frames_fallback f) by exact Hf.
      cbn [created trace].
      destruct (model env f); [| discriminate].
      unfold ret. intros H. injection H as _ <-. cbn [trace].
      split; [reflexivity |]. intros _.
      repeat (rewrite in_app_iff || cbn [In]). intuition auto.
    + rewrite select_frames_nothing by exact Hf. cbn [created trace].
      unfold ret. intros H. injection H as _ <-. cbn [trace].
      split; [reflexivity |]. intros _.
      repeat (rewrite in_app_iff || cbn [In]). intuition auto.
  - assert (Hsaved : (0 < List.length (frames_to_save t))%nat).
    { apply (Nat.le_lt_trans _ (List.length (@nil Image))); [cbn; lia |].
      apply Hcons; [discriminate | reflexivity]. }
    destruct (Nat.le_gt_cases (List.length (frames_to_save t)) 3)
      as [Hle | Hgt].
    + rewrite select_frames_few by lia.
      unfold ret. intros H. injection H as _ <-. cbn [trace].
      split; [intros Hin; now destruct Hloop_events | discriminate].
    + destruct (select_frames_many (frames_to_save t)
                  (mkState (([Exists; Open 0%nat] ++ evs) ++ [Release 0%nat])
                     1 []) Hgt) as (a & b & c & _ & _ & _ & E).
      rewrite E. unfold ret. intros H. injection H as _ <-. cbn [trace].
      split; [intros Hin; now destruct Hloop_events | discriminate].
Qed.

End AnalyzerFacts.

(** *** The claims on sample worlds *)

(** A missing path, an unreadable file and a file with frame rate 0. *)
Lemma analyze_video_errors_witness :
  (fst (analyze_video missing_clip 1 init) = Raise FileNotFoundError
   /\ trace (snd (analyze_video missing_clip 1 init)) = [Exists])
  /\ fst (analyze_video unreadable_clip 1 init) = Raise ValueError
  /\ fst (analyze_video (clip 0 3) 1 init) = Raise ValueError.
Proof.
  split; [| split].
  - destruct (analyze_video_errors nat nat missing_clip 1)
      as [[_ Hnf] [_ (evs & Ht & Hn)]].
    split; [apply Hnf; reflexivity |].
    rewrite Ht, (Hn eq_refl). reflexivity.
  - destruct (analyze_video_errors nat nat unreadable_clip 1)
      as [_ [[_ Hiv] _]].
    apply Hiv. split; [reflexivity | left; reflexivity].
  - destruct (analyze_video_errors nat nat (clip 0 3) 1) as [_ [[_ Hiv] _]].
    apply Hiv. split; [reflexivity |].
    right. exists (mkVideo 0 (seq 0 3)).
    split; [reflexivity | vm_compute; discriminate].
Defined.

(** Five frames, all sampled: the capture is released on return; with the
    detector raising on frame 2 it is not. *)
Lemma analyze_video_release_witness :
  held (snd (analyze_video (clip 1 5) 1 init)) = []
  /\ exists st',
       analyze_video (flaky_clip 1 5) 1 init = (Raise DetectorFailure, st')
       /\ held st' = [0%nat]
       /\ ~ In (Release 0) (trace st').
Proof.
  split.
  - eapply (proj1 (analyze_video_release nat nat (clip 1 5) 1)).
    vm_compute. reflexivity.
  - apply (proj2 (analyze_video_release nat nat (flaky_clip 1 5) 1)
             (mkVideo 1 (seq 0 5))); try reflexivity.
    + discriminate.
    + exists 2%nat. split; [vm_compute; auto 6 | reflexivity].
Defined.

(** C4 as stated fails: with the detector raising on a sampled frame,
    [analyze_video] is left through the exception with its capture still
    held. *)
Lemma analyze_video_leaks_capture :
  fst (analyze_video (flaky_clip 1 5) 1 init) = Raise DetectorFailure
  /\ held (snd (analyze_video (flaky_clip 1 5) 1 init)) <> [].
Proof.
  split; [vm_compute; reflexivity | vm_compute; discriminate].
Qed.



(** Ten processed frames: the frames returned are those of indices 0, 5
    and 9.  A first capture that delivers nothing and a second one that
    delivers frame 7: that frame alone is returned and the counts stay
    at zero. *)
Lemma analyze_video_frames_witness :
  (exists r st',
     analyze_video (clip 1 10) 1 init = (Return r, st')
     /\ frames r = [100; 105; 109]%nat)
  /\ (exists r st',
        analyze_video late_clip 1 init = (Return r, st')
        /\ frames r = [107%nat]
        /\ people r = 0 /\ cars r = 0 /\ weapon_present r = false
        /\ detected (trace st') = [7%nat]).
Proof.
  split.
  - pose proof (analyze_video_frames nat nat (clip 1 10) sample_detector
                  (mkVideo 1 (seq 0 10)) 1 eq_refl eq_refl eq_refl) as H.
    specialize (H ltac:(discriminate) (fun f => eq_refl)). cbv zeta in H.
    destruct H as (r & st' & Hrun & _ & Hmany & _).
    destruct Hmany as (a & b & c & Ha & Hb & Hc & Hfr);
      [vm_compute; lia |].
    vm_compute in Ha, Hb, Hc.
    injection Ha as <-. injection Hb as <-. injection Hc as <-.
    exists r, st'. split; assumption.
  - pose proof (analyze_video_frames nat nat late_clip sample_detector
                  (mkVideo 1 []) 1 eq_refl eq_refl eq_refl) as H.
    specialize (H ltac:(discriminate) (fun f => eq_refl)). cbv zeta in H.
    destruct H as (r & st' & Hrun & _ & _ & Hnone).
    destruct (Hnone eq_refl) as (_ & Hp & Hc & Hw & Hfr & Hd).
    exists r, st'. repeat split; assumption.
Defined.

(** C6 as stated fails on a video without frames: no frame is processed,
    the source is opened again, and yet the detector never runs and no
    frame is returned. *)
Lemma analyze_video_no_fallback_frame :
  fst (analyze_video (clip 1 0) 1 init)
    = Return (mkVideoResult 0 0 false [])
  /\ In (Open 1) (trace (snd (analyze_video (clip 1 0) 1 init)))
  /\ detected (trace (snd (analyze_video (clip 1 0) 1 init))) = [].
Proof.
  split; [vm_compute; reflexivity |].
  split; [vm_compute; do 4 right; left | vm_compute]; reflexivity.
Qed.

(** *** Further properties on sample worlds *)

Lemma analyze_video_result_shape_witness :
  exists r st',
    analyze_video (clip 1 10) 1 init = (Return r, st')
    /\ 0 <= people r /\ 0 <= cars r /\ (List.length (frames r) <= 3)%nat.
Proof.
  do 2 eexists. split; [vm_compute; reflexivity |].
  eapply (analyze_video_result_shape nat nat (clip 1 10) 1).
  vm_compute. reflexivity.
Defined.

Lemma analyze_video_reads_all_witness :
  reads 0 (trace (snd (analyze_video (clip (5 # 2) 7) 1 init))) = 8%nat.
Proof.
  eapply (analyze_video_reads_all nat nat (clip (5 # 2) 7) 1
            (mkVideo (5 # 2) (seq 0 7))); [reflexivity |].
  vm_compute. reflexivity.
Defined.

(** A file whose frame rate is 0: the run ends in [ValueError] and the
    capture stays open. *)
Lemma analyze_video_released_iff_returned_witness :
  held (snd (analyze_video (clip 0 3) 1 init)) = []
  <-> exists r, fst (analyze_video (clip 0 3) 1 init) = Return r.
Proof.
  apply (analyze_video_released_iff_returned nat nat (clip 0 3) 1
           (mkVideo 0 (seq 0 3))); [reflexivity | reflexivity |].
  apply surjective_pairing.
Defined.



Lemma analyze_video_fallback_iff_empty_witness :
  (In (Open 1) (trace (snd (analyze_video late_clip 1 init)))
   <-> @nil nat = [])
  /\ (In (Open 1) (trace (snd (analyze_video (clip 30 2) 1 init)))
      <-> seq 0 2 = []).
Proof.
  split.
  - eapply (analyze_video_fallback_iff_empty nat nat late_clip 1
              (mkVideo 1 [])); [reflexivity |].
    vm_compute. reflexivity.
  - eapply (analyze_video_fallback_iff_empty nat nat (clip 30 2) 1
              (mkVideo 30 (seq 0 2))); [reflexivity |].
    vm_compute. reflexivity.
Defined.

(** *** The order of the frames *)

Lemma maximum_permutation (l l' : list Z) :
  Permutation l l' -> maximum l = maximum l'.
Proof.
  induction 1 as [| x l l' _ IH | x y l | l l' l'' _ IH1 _ IH2].
  - reflexivity.
  - change (Z.max x (maximum l) = Z.max x (maximum l')). now rewrite IH.
  - change (Z.max y (Z.max x (maximum l)) = Z.max x (Z.max y (maximum l))).
    lia.
  - now rewrite IH1.
Qed.

Lemma existsb_permutation {A : Type} (p : A -> bool) (l l' : list A) :
  Permutation l l' -> existsb p l = existsb p l'.
Proof.
  induction 1 as [| x l l' _ IH | x y l | l l' l'' _ IH1 _ IH2]; cbn.
  - reflexivity.
  - now rewrite IH.
  - destruct (p x), (p y); reflexivity.
  - now rewrite IH1.
Qed.

(** The counts and the weapon flag depend on which frames are processed,
    not on their order: two videos whose processed frames are the same up
    to order give the same people, cars and weapon_present. *)
Theorem analyze_video_order_independent {Frame Image : Type}
    (env env' : Env Frame Image) (det : Frame -> Results Image)
    (v v' : Video Frame) (frame_rate frame_rate' : Z) :
  path_exists env = true -> capture env 0 = Some v ->
  (0 < fps v)%Q -> frame_rate <> 0 ->
  path_exists env' = true -> capture env' 0 = Some v' ->
  (0 < fps v')%Q -> frame_rate' <> 0 ->
  (forall f, model env f = Some (det f)) ->
  (forall f, model env' f = Some (det f)) ->
  Permutation
    (sampled (frame_interval_of (fps v) frame_rate) (frames_of v))
    (sampled (frame_interval_of (fps v') frame_rate') (frames_of v')) ->
  exists r st r' st',
    analyze_video env frame_rate init = (Return r, st)
    /\ analyze_video env' frame_rate' init = (Return r', st')
    /\ people r = people r'
    /\ cars r = cars r'
    /\ weapon_present r = weapon_present r'.
Proof.
  intros He Hc Hf Hr He' Hc' Hf' Hr' Hdet Hdet' Hperm.
  rewrite (analyze_video_checked _ _ env v) by assumption.
  rewrite (analyze_video_checked _ _ env' v') by assumption.
  destruct (after_checks_ok _ _ env det v frame_rate Hdet)
    as (fs & st & Hrun & _).
  destruct (after_checks_ok _ _ env' det v' frame_rate' Hdet')
    as (fs' & st' & Hrun' & _).
  do 4 eexists. split; [exact Hrun |]. split; [exact Hrun' |].
  cbn [people cars weapon_present].
  split; [| split].
  - apply maximum_permutation. now apply Permutation_map.
  - apply maximum_permutation. now apply Permutation_map.
  - now apply existsb_permutation.
Qed.

Lemma analyze_video_order_independent_witness :
  exists r st r' st',
    analyze_video (clip_of 1 [0; 1; 2; 3]%nat) 1 init = (Return r, st)
    /\ analyze_video (clip_of 1 [3; 1; 0; 2]%nat) 1 init = (Return r', st')
    /\ people r = people r'
    /\ cars r = cars r'
    /\ weapon_present r = weapon_present r'.
Proof.
  apply (analyze_video_order_independent
           (clip_of 1 [0; 1; 2; 3]%nat) (clip_of 1 [3; 1; 0; 2]%nat)
           sample_detector (mkVideo 1 [0; 1; 2; 3]%nat)
           (mkVideo 1 [3; 1; 0; 2]%nat) 1 1);
    try reflexivity; try discriminate.
  vm_compute.
  apply perm_trans with [0; 3; 1; 2]%nat.
  - apply perm_skip.
    apply perm_trans with [1; 3; 2]%nat; [apply perm_skip, perm_swap |].
    apply perm_swap.
  - apply perm_trans with [3; 0; 1; 2]%nat; [apply perm_swap |].
    apply perm_skip, perm_swap.
Defined.

End VideoAnalyzerFacts.

(** ** The application *)

Module AppFacts.
Import Scoring VideoAnalyzer App.
Import ScoringFacts TextParserFacts VideoAnalyzerFacts.
Local Open Scope list_scope.

(** *** The colour of the score *)

Lemma penalty_count_steps ty claim video :
  (penalty_count claim video <= 10
   <-> Forall (fun x => snd x <> unsupported) (expected_count ty claim video))
  /\ (penalty_count claim video <= 10 \/ 30 <= penalty_count claim video).
Proof.
  destruct claim as [n |]; cbn [penalty_count expected_count].
  - unfold documented_count.
    destruct (_ =? 0); [| destruct (_ =? 1)]; cbn [fst snd];
      (split; [split; intros H | lia]);
      try lia; try (constructor; [discriminate | constructor]).
    inversion H as [| x l Hx Hl]. now destruct Hx.
  - split; [split; [constructor | lia] | lia].
Qed.

Lemma penalty_weapon_steps claim video :
  (penalty_weapon claim video <= 10
   <-> Forall (fun x => snd x <> unsupported) (expected_weapon claim video))
  /\ (penalty_weapon claim video = 0 \/ penalty_weapon claim video = 40).
Proof.
  destruct claim as [b |]; cbn [penalty_weapon expected_weapon].
  - unfold documented_weapon.
    destruct (Bool.eqb b video); cbn [fst snd];
      (split; [split; intros H | lia]);
      try lia; try (constructor; [discriminate | constructor]).
    inversion H as [| x l Hx Hl]. now destruct Hx.
  - split; [split; [constructor | lia] | lia].
Qed.

(** The score line is green exactly when no claim is unsupported: one
    unsupported claim takes the score to 70 or below, and partial matches
    alone cannot take it below 80. *)
Theorem score_color_green_iff (claims : Claims) (video_stats : VideoStats) :
  score_color (score (score_consistency claims video_stats)) = green
  <-> forall d, In d (details (score_consistency claims video_stats)) ->
                result d <> unsupported.
Proof.
  destruct (score_consistency_unfold claims video_stats) as [Hs Hd].
  cbv zeta in Hs, Hd.
  destruct (penalty_count_steps Scoring.people (claim_people claims)
              (get (video_people video_stats) 0)) as [P1 Q1].
  destruct (penalty_count_steps Scoring.cars (claim_cars claims)
              (get (video_cars video_stats) 0)) as [P2 Q2].
  destruct (penalty_weapon_steps (claim_weapon claims)
              (get (video_weapon video_stats) false)) as [P3 Q3].
  pose proof (penalty_count_range (claim_people claims)
                (get (video_people video_stats) 0)) as R1.
  pose proof (penalty_count_range (claim_cars claims)
                (get (video_cars video_stats) 0)) as R2.
  pose proof (penalty_weapon_range (claim_weapon claims)
                (get (video_weapon video_stats) false)) as R3.
  assert (Hall :
    (forall d, In d (details (score_consistency claims video_stats)) ->
               result d <> unsupported)
    <-> Forall (fun x => snd x <> unsupported)
          (map verdict (details (score_consistency claims video_stats)))).
  { rewrite Forall_map, Forall_forall. reflexivity. }
  rewrite Hall, Hd, !Forall_app, <- P1, <- P2, <- P3.
  unfold score_color. rewrite Hs.
  destruct (Z.leb_spec 80
              (100 - penalty_count (claim_people claims)
                       (get (video_people video_stats) 0)
                   - penalty_count (claim_cars claims)
                       (get (video_cars video_stats) 0)
                   - penalty_weapon (claim_weapon claims)
                       (get (video_weapon video_stats) false))) as [H | H].
  - split; [intros _; lia | reflexivity].
  - split; [destruct (50 <=? _); discriminate | intros (A & B & C); lia].
Qed.

(** *** One request *)

Section HandlerFacts.

Variables Upload Frame Image : Type.
Variable capture : nat -> option (Video Frame).
Variable model : Frame -> option (Results Image).

Lemma file_effects_app (a b : list (effect Upload Frame Image)) :
  file_effects (a ++ b) = file_effects a ++ file_effects b.
Proof. unfold file_effects. apply filter_app. Qed.

Lemma file_effects_cons (e : effect Upload Frame Image)
    (l : list (effect Upload Frame Image)) :
  file_effects (e :: l)
    = match e with
      | Show _ => file_effects l
      | _ => e :: file_effects l
      end.
Proof. destruct e; reflexivity. Qed.

Lemma file_effects_shown (f : nat * Image -> message Image)
    (l : list (nat * Image)) :
  @file_effects Upload Frame Image (map (fun p => Show (f p)) l) = [].
Proof. induction l as [| p l IH]; [reflexivity | exact IH]. Qed.

Lemma file_effects_details (ds : list ClaimDetail) :
  @file_effects Upload Frame Image (show_details ds) = [].
Proof.
  destruct ds as [| d ds]; [reflexivity |].
  unfold show_details. cbn [file_effects filter].
  induction (d :: ds) as [| x l IH]; [reflexivity | exact IH].
Qed.

Lemma file_effects_frames (fs : list Image) :
  @file_effects Upload Frame Image (show_frames fs) = [].
Proof.
  destruct fs as [| x fs]; [reflexivity |].
  unfold show_frames. apply file_effects_shown.
Qed.

(** The handler with its guard on the text read as a test. *)
Lemma on_analyze_accepted (upload : Upload) (text_desc : string) :
  Re.blank text_desc = false ->
  on_analyze (Some upload) text_desc capture model
    = Save upload
      :: match analyze_video (mkEnv true capture model) 1 init with
         | (Raise e, st) => [Analyze st; Show (error_analyzing e); Unlink]
         | (Return video_stats, st) =>
             let claims := TextParser.extract_claims text_desc in
             let result := score_consistency claims (stats_of video_stats) in
             [Analyze st; Unlink; Show success;
              Show (score_line (score_color (score result)) (score result))]
             ++ show_details (details result)
             ++ [Show (metrics (people video_stats) (cars video_stats)
                         (if weapon_present video_stats
                          then "Yes" else "No")%string)]
             ++ show_frames (frames video_stats)
             ++ [Show (claims_json claims);
                 Show (stats_json (people video_stats) (cars video_stats)
                         (weapon_present video_stats)
                         (List.length (frames video_stats)));
                 Show usage_tips]
         end.
Proof.
  intros B. unfold on_analyze.
  destruct text_desc as [| c t]; [discriminate |].
  destruct (Re.strip (String c t)) eqn:E; [| reflexivity].
  apply strip_blank in E. congruence.
Qed.

Lemma on_analyze_rejected (upload : Upload) (text_desc : string) :
  Re.blank text_desc = true ->
  on_analyze (Some upload) text_desc capture model = [Show error_text].
Proof.
  intros B. unfold on_analyze.
  destruct text_desc as [| c t]; [reflexivity |].
  apply strip_blank in B. now rewrite B.
Qed.

(** A request without an upload or with a blank text writes no file and
    runs no analysis.  Every other request writes the upload, runs the
    analysis and removes the file, in that order, whether the analysis
    returns or raises. *)
Theorem on_analyze_temporary_file (video_file : option Upload)
    (text_desc : string) :
  match video_file with
  | Some upload =>
      if Re.blank text_desc
      then file_effects (on_analyze video_file text_desc capture model) = []
      else file_effects (on_analyze video_file text_desc capture model)
           = [Save upload;
              Analyze (snd (analyze_video (mkEnv true capture model) 1 init));
              Unlink]
  | None => file_effects (on_analyze video_file text_desc capture model) = []
  end.
Proof.
  destruct video_file as [upload |]; [| reflexivity].
  destruct (Re.blank text_desc) eqn:B.
  - now rewrite on_analyze_rejected.
  - rewrite on_analyze_accepted by exact B.
    destruct (analyze_video (mkEnv true capture model) 1 init)
      as [[r | e] st]; [| reflexivity].
    cbv zeta. cbn [app snd].
    repeat (rewrite ?file_effects_app, ?file_effects_cons,
              ?file_effects_details, ?file_effects_frames;
            cbv beta iota).
    reflexivity.
Qed.

(** The video analysis of a request can fail in two ways only: with
    [ValueError] (a file OpenCV cannot open, or without a positive frame
    rate) or with the detector's exception.  The file was just written and
    the rate is the default, so the other exceptions of [analyze_video]
    cannot occur.  A failed request shows the error and nothing else. *)
Theorem on_analyze_failure (upload : Upload) (text_desc : string)
    (e : exn) (st : State Frame) :
  Re.blank text_desc = false ->
  analyze_video (mkEnv true capture model) 1 init = (Raise e, st) ->
  (e = ValueError \/ e = DetectorFailure)
  /\ shown (on_analyze (Some upload) text_desc capture model)
     = [error_analyzing e].
Proof.
  intros B Hrun. split.
  - rewrite analyze_video_cases in Hrun.
    cbn [path_exists VideoAnalyzer.capture negb Z.eqb] in Hrun.
    destruct (capture 0) as [v |];
      [| injection Hrun as <- _; now left].
    destruct (Qle_bool (fps v) 0); [injection Hrun as <- _; now left |].
    destruct (after_checks_outcome _ _ _ _ _ _ _ Hrun) as (_ & Hr & _).
    right. now apply Hr.
  - rewrite on_analyze_accepted, Hrun by exact B. reflexivity.
Qed.

(** Every frame that [analyze_video] returns is shown, frame [i] in column
    [i] with the caption [i + 1]: the slice to three frames drops nothing
    and no two frames share a column. *)
Theorem show_frames_all (env : Env Frame Image) (frame_rate : Z)
    (r : VideoResult Image) (st : State Frame) :
  analyze_video env frame_rate init = (Return r, st) ->
  frames r <> [] ->
  @show_frames Upload Frame Image (frames r)
    = map (fun p => Show (image (fst p) (snd p) (fst p + 1)))
        (combine (seq 0 (List.length (frames r))) (frames r)).
Proof.
  intros Hrun Hne.
  assert (Hlen : (List.length (frames r) <= 3)%nat).
  { rewrite analyze_video_cases in Hrun.
    destruct (path_exists env); cbn [negb] in Hrun; [| discriminate].
    destruct (VideoAnalyzer.capture env 0) as [v |]; [| discriminate].
    destruct (Qle_bool (fps v) 0); [discriminate |].
    destruct (frame_rate =? 0); [discriminate |].
    destruct (after_checks_shape _ _ _ _ _ _ _ Hrun) as [Hret _].
    now destruct (Hret r eq_refl) as (_ & _ & Hl & _). }
  unfold show_frames. destruct (frames r) as [| x fs] eqn:E; [congruence |].
  rewrite <- E in *. rewrite firstn_all2 by exact Hlen.
  rewrite Nat.min_l by exact Hlen.
  apply map_ext_in. intros [i f] Hin. cbn [fst snd].
  apply in_combine_l in Hin. apply in_seq in Hin.
  now rewrite Nat.mod_small by lia.
Qed.

(** A text in which no claim is found gets the full score, in green, with
    the note that no claim was found, whatever the video shows. *)
Theorem on_analyze_no_claims (upload : Upload) (text_desc : string)
    (video_stats : VideoResult Image) (st : State Frame) :
  Re.blank text_desc = false ->
  analyze_video (mkEnv true capture model) 1 init = (Return video_stats, st) ->
  TextParser.extract_claims text_desc = mkClaims None None None ->
  exists rest,
    shown (on_analyze (Some upload) text_desc capture model)
      = success :: score_line green 100 :: info_no_claims :: rest.
Proof.
  intros B Hrun Hnone.
  rewrite on_analyze_accepted, Hrun, Hnone by exact B.
  cbv zeta. eexists. reflexivity.
Qed.

End HandlerFacts.

(** *** Requests on sample worlds *)

Lemma on_analyze_failure_witness :
  (DetectorFailure = ValueError \/ DetectorFailure = DetectorFailure)
  /\ shown (on_analyze (Some tt) "two cars"
              (VideoAnalyzer.capture (flaky_clip 1 5))
              (VideoAnalyzer.model (flaky_clip 1 5)))
     = [error_analyzing DetectorFailure].
Proof.
  eapply (on_analyze_failure unit nat nat); [reflexivity |].
  vm_compute. reflexivity.
Defined.

Lemma show_frames_all_witness :
  @show_frames unit nat nat [100; 105; 109]%nat
  = [Show (image 0 100%nat 1); Show (image 1 105%nat 2);
     Show (image 2 109%nat 3)].
Proof.
  eapply (show_frames_all unit nat nat (clip 1 10) 1
            (mkVideoResult 9 1 true [100; 105; 109]%nat)).
  - vm_compute. reflexivity.
  - discriminate.
Defined.

Lemma on_analyze_no_claims_witness :
  exists rest,
    shown (on_analyze (Some tt) "Nothing happened."
             (VideoAnalyzer.capture (clip 1 4))
             (VideoAnalyzer.model (clip 1 4)))
    = success :: score_line green 100 :: info_no_claims :: rest.
Proof.
  eapply (on_analyze_no_claims unit nat nat); [reflexivity | | ].
  - vm_compute. reflexivity.
  - vm_compute. reflexivity.
Defined.

End AppFacts.
